(** * content-gen backend: polling engine, job client normalisation,
      asset store and request orchestration

    A shallow embedding of
      - [services/storage_service.py]  (module [Storage]),
      - [services/sora_service.py]     (module [Sora]),
      - [routers/videos.py]            (module [Router]),
      - [models/video_response.py]     (records [ErrorDetail], [VideoJob]),
    followed by the properties the design document states about them. *)

From Stdlib Require Import ZArith String Ascii List Bool Lia DecimalString.
From Stdlib.Strings Require Import Byte.
From stdpp Require Import gmap strings list fin_maps.

Local Open Scope Z_scope.

(** ** Python values and exceptions *)

(** [str(n)] for a Python [int]. *)
Definition str_int (n : Z) : string := NilZero.string_of_int (Z.to_int n).

(** The double quote, as a string of length one. *)
Definition dquote : string := String (ascii_of_nat 34) EmptyString.

(** [s.startswith(p)] *)
Fixpoint starts_with (p s : string) : bool :=
  match p with
  | EmptyString => true
  | String a p' =>
      match s with
      | EmptyString => false
      | String b s' => Ascii.eqb a b && starts_with p' s'
      end
  end.

(** [needle in hay] for two [str] values. *)
Fixpoint str_contains (needle hay : string) : bool :=
  starts_with needle hay
  || match hay with
     | EmptyString => false
     | String _ hay' => str_contains needle hay'
     end.

(** [c.lower()] on the ASCII range; other code points are left alone. *)
Definition ascii_lower (c : ascii) : ascii :=
  let n := nat_of_ascii c in
  if ((65 <=? n) && (n <=? 90))%nat then ascii_of_nat (n + 32) else c.

Fixpoint str_lower (s : string) : string :=
  match s with
  | EmptyString => EmptyString
  | String c s' => String (ascii_lower c) (str_lower s')
  end.

(** The exception classes the three modules raise, catch or let through.
    Every constructor carries what [str(e)] prints, which is all the
    handlers look at, except [HTTPException], which carries the status code
    and the detail of the response. *)
Inductive exn : Type :=
  | TimeoutError (msg : string)
  | OpenAIError (msg : string)
  | AttributeError (msg : string)
  | ValidationError (msg : string)
  | FileNotFoundError (msg : string)
  | HTTPException (status_code : Z) (detail : string).

Definition str_exn (e : exn) : string :=
  match e with
  | TimeoutError m | OpenAIError m | AttributeError m
  | ValidationError m | FileNotFoundError m => m
  | HTTPException c d => str_int c +:+ ": " +:+ d
  end.

(** ** models/video_response.py *)

Inductive Status : Type := queued | in_progress | completed | failed.

Definition status_str (s : Status) : string :=
  match s with
  | queued => "queued"
  | in_progress => "in_progress"
  | completed => "completed"
  | failed => "failed"
  end.

Definition status_eqb (a b : Status) : bool :=
  match a, b with
  | queued, queued | in_progress, in_progress
  | completed, completed | failed, failed => true
  | _, _ => false
  end.

Record ErrorDetail : Type := mkErrorDetail {
  message : string;
  type_ : string
}.

Record VideoJob : Type := mkVideoJob {
  id : string;
  object : string;
  status : Status;
  model : string;
  progress : option Z;
  created_at : Z;
  completed_at : option Z;
  expires_at : option Z;
  size_ : string;
  seconds : string;
  remixed_from_video_id : option string;
  error : option ErrorDetail
}.

(** ** services/storage_service.py *)

Module Storage.

(** The storage directory: file name (path relative to [storage_path])
    to file content.  [Path] values handed out by the service are these
    relative names.  The directory is flat: the service creates files in
    it and never a subdirectory, so a file name is a single path
    component, and two names are the same file only if they are equal.
    This is what the code does with a job id and a variant that can be
    part of a file name; the statements about the names of files say so
    with [path_safe]. *)
Abbreviation files := (gmap string (list byte)).

Definition extensions : gmap string string :=
  <["video" := ".mp4"]> (<["thumbnail" := ".webp"]>
    (<["spritesheet" := ".jpg"]> ∅)).

Definition content_types : gmap string string :=
  <["video" := "video/mp4"]> (<["thumbnail" := "image/webp"]>
    (<["spritesheet" := "image/jpeg"]> ∅)).

(** [extensions.get(variant, ".bin")] *)
Definition extension (variant : string) : string :=
  default ".bin" (extensions !! variant).

(** [f"{video_id}_{variant}{ext}"] *)
Definition filename (video_id variant : string) : string :=
  video_id +:+ "_" +:+ variant +:+ extension variant.

Definition save_video (video_id : string) (content : list byte)
    (variant : string) (fs : files) : files * string :=
  let filepath := filename video_id variant in
  (<[filepath := content]> fs, filepath).

Definition get_video_path (video_id variant : string) (fs : files)
    : option string :=
  let filepath := filename video_id variant in
  match fs !! filepath with
  | Some _ => Some filepath
  | None => None
  end.

Definition get_content_type (variant : string) : string :=
  default "application/octet-stream" (content_types !! variant).

(** *** [Path.glob]: shell-style matching of one pattern against the
    names of the directory, after [fnmatch.translate]. *)

Inductive glob_token : Type :=
  | GStar
  | GAny
  | GClass (negated : bool) (stuff : string)
  | GLit (c : ascii).

(** Characters of a bracket expression up to the closing bracket. *)
Fixpoint until_close (s : string) : option (string * string) :=
  match s with
  | EmptyString => None
  | String c rest =>
      if Ascii.eqb c "]" then Some (EmptyString, rest)
      else match until_close rest with
           | Some (m, r) => Some (String c m, r)
           | None => None
           end
  end.

(** What follows an opening bracket: an optional [!], an optional
    leading closing bracket that counts as a member, then the members up
    to the next closing bracket.  [None] when the bracket is never
    closed, in which case the opening bracket is an ordinary character. *)
Definition scan_class (s : string) : option (bool * string * string) :=
  let '(neg, s1) :=
    match s with
    | String c t => if Ascii.eqb c "!" then (true, t) else (false, s)
    | EmptyString => (false, s)
    end in
  match s1 with
  | String c t =>
      if Ascii.eqb c "]" then
        match until_close t with
        | Some (m, r) => Some (neg, String c m, r)
        | None => None
        end
      else
        match until_close s1 with
        | Some (m, r) => Some (neg, m, r)
        | None => None
        end
  | EmptyString => None
  end.

Fixpoint translate (fuel : nat) (pat : string) : list glob_token :=
  match fuel with
  | O => []
  | S fuel' =>
      match pat with
      | EmptyString => []
      | String c rest =>
          if Ascii.eqb c "*" then GStar :: translate fuel' rest
          else if Ascii.eqb c "?" then GAny :: translate fuel' rest
          else if Ascii.eqb c "[" then
            match scan_class rest with
            | Some (neg, stuff, rest') =>
                GClass neg stuff :: translate fuel' rest'
            | None => GLit c :: translate fuel' rest
            end
          else GLit c :: translate fuel' rest
      end
  end.

Definition glob_tokens (pat : string) : list glob_token :=
  translate (String.length pat) pat.

(** Membership in the members of a bracket expression: [lo-hi] is a
    range (an empty one when [hi < lo]), anything else stands for
    itself. *)
Fixpoint class_mem (stuff : string) (c : ascii) : bool :=
  match stuff with
  | EmptyString => false
  | String lo (String dash (String hi rest as tl2) as tl1) =>
      if Ascii.eqb dash "-" then
        Ascii.leb lo c && Ascii.leb c hi || class_mem rest c
      else Ascii.eqb lo c || class_mem tl1 c
  | String x rest => Ascii.eqb x c || class_mem rest c
  end.

(** A wildcard never matches the path separator: a pattern is matched
    one path component at a time. *)
Definition sep (c : ascii) : bool := Ascii.eqb c "/".

Definition token_accepts (t : glob_token) (c : ascii) : bool :=
  match t with
  | GStar => negb (sep c)
  | GAny => negb (sep c)
  | GClass neg stuff => negb (sep c) && xorb neg (class_mem stuff c)
  | GLit x => Ascii.eqb x c
  end.

Fixpoint glob_match (p : list glob_token) : string -> bool :=
  match p with
  | [] => fun s => match s with EmptyString => true | _ => false end
  | t :: p' =>
      match t with
      | GStar =>
          fix star (s : string) : bool :=
            glob_match p' s
            || match s with
               | EmptyString => false
               | String c s' => token_accepts GStar c && star s'
               end
      | _ =>
          fun s =>
            match s with
            | EmptyString => false
            | String c s' => token_accepts t c && glob_match p' s'
            end
      end
  end.

(** [self.storage_path.glob(pattern)] *)
Definition glob (pattern : string) (fs : files) : list string :=
  filter (fun name => glob_match (glob_tokens pattern) name = true)
    ((map_to_list fs).*1).

(** One turn of the loop in [delete_video_files]:
    [filepath.unlink(); deleted_count += 1]. *)
Definition unlink_step (acc : files * Z) (filepath : string) : files * Z :=
  (delete filepath (fst acc), snd acc + 1).

Definition delete_video_files (video_id : string) (fs : files)
    : files * Z :=
  let pattern := video_id +:+ "_*" in
  fold_left unlink_step (glob pattern fs) (fs, 0).

End Storage.

(** ** The world the services run in *)

(** What the provider's SDK hands back: attribute probing ([hasattr],
    [getattr]) needs objects whose attributes may be missing and whose
    values are dynamically typed. *)
#[local] Set Warnings "-register-all".
Inductive pyval : Type :=
  | PNone
  | PInt (n : Z)
  | PStr (s : string)
  | PObj (attrs : list (string * pyval)).

Fixpoint assoc (name : string) (attrs : list (string * pyval))
    : option pyval :=
  match attrs with
  | [] => None
  | (k, v) :: rest => if String.eqb k name then Some v else assoc name rest
  end.

(** [getattr(v, name)] when the attribute exists. *)
Definition attr (v : pyval) (name : string) : option pyval :=
  match v with
  | PObj attrs => assoc name attrs
  | _ => None
  end.

Definition hasattr (v : pyval) (name : string) : bool :=
  match attr v name with Some _ => true | None => false end.

(** [getattr(v, name, dflt)] *)
Definition getattr (v : pyval) (name : string) (dflt : pyval) : pyval :=
  match attr v name with Some x => x | None => dflt end.

(** Truth value of an object in a condition. *)
Definition truthy (v : pyval) : bool :=
  match v with
  | PNone => false
  | PInt n => negb (n =? 0)
  | PStr s => negb (String.eqb s "")
  | PObj _ => true
  end.

(** [str(v)].  The default rendering of an object prints its address; the
    model prints a fixed text for it. *)
Definition py_str (v : pyval) : string :=
  match v with
  | PNone => "None"
  | PInt n => str_int n
  | PStr s => s
  | PObj _ => "<object>"
  end.

(** Observable effects, in the order they happen. *)
Inductive event : Type :=
  | EvRetrieve (video_id : string)
  | EvDownload (video_id variant : string)
  | EvDelete (video_id : string)
  | EvRemix (video_id prompt : string)
  | EvSleep (secs : Z)
  | EvSave (path : string)
  | EvRead (path : string)
  | EvUnlink (path : string).

(** The state threaded through every call: the monotonic clock of the
    event loop in milliseconds, how many times it was read, how many
    upstream calls and sleeps were made, the effects so far and the
    storage directory. *)
Record World : Type := mkWorld {
  clock : Z;
  nreads : nat;
  ncalls : nat;
  nsleeps : nat;
  trace : list event;
  disk : gmap string (list byte)
}.

(** The surroundings: what the provider answers to the [n]-th upstream
    call, how long that call takes, how far the clock has moved on when it
    is read for the [n]-th time, and by how much the [n]-th sleep
    overshoots (all in milliseconds).

    The last two fields are what the models take from pydantic: which
    integer, if any, a string is read as where a field is declared [int]
    (the library runs in lax mode and converts such a string), and the
    text of the [ValidationError] the constructor of a model raises for the
    keyword arguments it turns down.  That text lists each rejected
    argument with its value, and the routes search it. *)
Record Env : Type := mkEnv {
  videos_retrieve : nat -> string -> exn + pyval;
  videos_download_content : nat -> string -> string -> exn + list byte;
  videos_delete : nat -> string -> exn + unit;
  videos_remix : nat -> string -> string -> exn + pyval;
  latency : nat -> Z;
  tick : nat -> Z;
  oversleep : nat -> Z;
  int_of_str : string -> option Z;
  validation_report : string -> list (string * pyval) -> string
}.

(** A computation either returns, raises, or is still running when the
    fuel of the enclosing loop is spent. *)
Inductive outcome (A : Type) : Type :=
  | Return (a : A)
  | Raise (e : exn)
  | OutOfFuel.
Arguments Return {A} a.
Arguments Raise {A} e.
Arguments OutOfFuel {A}.

Definition M (A : Type) : Type := World -> World * outcome A.

Definition ret {A} (a : A) : M A := fun w => (w, Return a).

Definition raise {A} (e : exn) : M A := fun w => (w, Raise e).

Definition bind {A B} (m : M A) (k : A -> M B) : M B :=
  fun w =>
    match m w with
    | (w', Return a) => k a w'
    | (w', Raise e) => (w', Raise e)
    | (w', OutOfFuel) => (w', OutOfFuel)
    end.

(** [try: m  except Exception as e: h e] *)
Definition try_except {A} (m : M A) (h : exn -> M A) : M A :=
  fun w =>
    match m w with
    | (w', Raise e) => h e w'
    | r => r
    end.

Definition lift {A} (r : exn + A) : M A :=
  match r with
  | inl e => raise e
  | inr a => ret a
  end.

Notation "x <- m ;; k" := (bind m (fun x => k))
  (at level 100, m at next level, right associativity).
Notation "m ;;; k" := (bind m (fun _ => k))
  (at level 100, right associativity).

(** ** services/sora_service.py *)

Module Sora.

Section Service.
Variable env : Env.

Section Validation.
(** pydantic's check of one keyword argument of the constructor of the
    model [name] against the declared type of the field.  Whichever
    arguments are rejected, the constructor raises one [ValidationError],
    whose text is the report on the whole call with the arguments
    [kwargs]. *)
Variable name : string.
Variable kwargs : list (string * pyval).

Definition invalid {A} : exn + A :=
  inl (ValidationError (validation_report env name kwargs)).

(** [str]: a value of another type is not converted. *)
Definition as_str (v : pyval) : exn + string :=
  match v with PStr s => inr s | _ => invalid end.

(** [int]: an integer, or a string the library reads as one. *)
Definition as_int (v : pyval) : exn + Z :=
  match v with
  | PInt n => inr n
  | PStr s =>
      match int_of_str env s with
      | Some n => inr n
      | None => invalid
      end
  | _ => invalid
  end.

(** [Optional[int]] *)
Definition as_opt_int (v : pyval) : exn + option Z :=
  match v with
  | PNone => inr None
  | _ =>
      match as_int v with
      | inr n => inr (Some n)
      | inl e => inl e
      end
  end.

(** [Optional[str]] *)
Definition as_opt_str (v : pyval) : exn + option string :=
  match v with
  | PNone => inr None
  | PStr s => inr (Some s)
  | _ => invalid
  end.

(** [Literal["queued", "in_progress", "completed", "failed"]] *)
Definition as_status (v : pyval) : exn + Status :=
  match v with
  | PStr s =>
      if String.eqb s "queued" then inr queued
      else if String.eqb s "in_progress" then inr in_progress
      else if String.eqb s "completed" then inr completed
      else if String.eqb s "failed" then inr failed
      else invalid
  | _ => invalid
  end.

(** [Optional[int] = Field(None, ge=0, le=100)]: the bounds are checked
    on the integer the value was read as. *)
Definition as_progress (v : pyval) : exn + option Z :=
  match v with
  | PNone => inr None
  | _ =>
      match as_int v with
      | inr n => if (0 <=? n) && (n <=? 100) then inr (Some n) else invalid
      | inl e => inl e
      end
  end.

End Validation.

(** [type(v).__name__]; an object is one of the SDK's class [Video]. *)
Definition type_name (v : pyval) : string :=
  match v with
  | PNone => "NoneType"
  | PInt _ => "int"
  | PStr _ => "str"
  | PObj _ => "Video"
  end.

(** [video.name] *)
Definition required (video : pyval) (name : string) : exn + pyval :=
  match attr video name with
  | Some v => inr v
  | None =>
      inl (AttributeError
             ("'" +:+ type_name video +:+ "' object has no attribute '"
                +:+ name +:+ "'"))
  end.

Definition and_then {A B} (r : exn + A) (k : A -> exn + B) : exn + B :=
  match r with
  | inl e => inl e
  | inr a => k a
  end.

(** [ErrorDetail(message=getattr(video.error, "message", "Unknown error"),
                 type=getattr(video.error, "type", "unknown"))] *)
Definition convert_error (video : pyval) : exn + option ErrorDetail :=
  if hasattr video "error" && truthy (getattr video "error" PNone) then
    let err := getattr video "error" PNone in
    let v_message := getattr err "message" (PStr "Unknown error") in
    let v_type := getattr err "type" (PStr "unknown") in
    let kwargs := [("message", v_message); ("type", v_type)] in
    and_then (as_str "ErrorDetail" kwargs v_message) (fun m =>
    and_then (as_str "ErrorDetail" kwargs v_type) (fun t =>
    inr (Some (mkErrorDetail m t))))
  else inr None.

(** An [ErrorDetail] or [None] as a keyword argument. *)
Definition error_value (error_detail : option ErrorDetail) : pyval :=
  match error_detail with
  | Some d => PObj [("message", PStr (message d)); ("type", PStr (type_ d))]
  | None => PNone
  end.

Definition _convert_to_video_job (video : pyval) : exn + VideoJob :=
  and_then (convert_error video) (fun error_detail =>
  and_then (required video "id") (fun v_id =>
  let v_object := getattr video "object" (PStr "video") in
  and_then (required video "status") (fun v_status =>
  and_then (required video "model") (fun v_model =>
  let v_progress := getattr video "progress" PNone in
  and_then (required video "created_at") (fun v_created_at =>
  let v_completed_at := getattr video "completed_at" PNone in
  let v_expires_at := getattr video "expires_at" PNone in
  and_then (required video "size") (fun v_size =>
  let v_seconds :=
    if hasattr video "seconds"
    then py_str (getattr video "seconds" PNone) else "4" in
  let v_remixed := getattr video "remixed_from_video_id" PNone in
  (* the constructor of [VideoJob] validates its arguments *)
  let kwargs :=
    [("id", v_id); ("object", v_object); ("status", v_status);
     ("model", v_model); ("progress", v_progress);
     ("created_at", v_created_at); ("completed_at", v_completed_at);
     ("expires_at", v_expires_at); ("size", v_size);
     ("seconds", PStr v_seconds); ("remixed_from_video_id", v_remixed);
     ("error", error_value error_detail)] in
  and_then (as_str "VideoJob" kwargs v_id) (fun f_id =>
  and_then (as_str "VideoJob" kwargs v_object) (fun f_object =>
  and_then (as_status "VideoJob" kwargs v_status) (fun f_status =>
  and_then (as_str "VideoJob" kwargs v_model) (fun f_model =>
  and_then (as_progress "VideoJob" kwargs v_progress) (fun f_progress =>
  and_then (as_int "VideoJob" kwargs v_created_at) (fun f_created_at =>
  and_then (as_opt_int "VideoJob" kwargs v_completed_at)
    (fun f_completed_at =>
  and_then (as_opt_int "VideoJob" kwargs v_expires_at) (fun f_expires_at =>
  and_then (as_str "VideoJob" kwargs v_size) (fun f_size =>
  and_then (as_opt_str "VideoJob" kwargs v_remixed) (fun f_remixed =>
  inr (mkVideoJob f_id f_object f_status f_model f_progress
         f_created_at f_completed_at f_expires_at f_size v_seconds
         f_remixed error_detail))))))))))))))))).

(** An awaited call of the provider's client: it takes its time and
    answers or raises. *)
Definition upstream {A} (ev : event) (answer : nat -> exn + A) : M A :=
  fun w =>
    ({| clock := clock w + latency env (ncalls w);
        nreads := nreads w;
        ncalls := S (ncalls w);
        nsleeps := nsleeps w;
        trace := trace w ++ [ev];
        disk := disk w |},
     match answer (ncalls w) with
     | inl e => Raise e
     | inr a => Return a
     end).

(** [asyncio.get_event_loop().time()], in milliseconds. *)
Definition loop_time : M Z :=
  fun w =>
    let now := clock w + tick env (nreads w) in
    ({| clock := now;
        nreads := S (nreads w);
        ncalls := ncalls w;
        nsleeps := nsleeps w;
        trace := trace w;
        disk := disk w |},
     Return now).

(** [await asyncio.sleep(secs)]: a delay that is not positive only
    yields to the loop. *)
Definition asyncio_sleep (secs : Z) : M unit :=
  fun w =>
    ({| clock := clock w + 1000 * Z.max secs 0 + oversleep env (nsleeps w);
        nreads := nreads w;
        ncalls := ncalls w;
        nsleeps := S (nsleeps w);
        trace := trace w ++ [EvSleep secs];
        disk := disk w |},
     Return tt).

(** The handlers [except OpenAIError] and [except Exception] of every
    method log and re-raise, so an exception passes through them
    unchanged. *)
Definition get_video_status (video_id : string) : M VideoJob :=
  video <- upstream (EvRetrieve video_id)
             (fun n => videos_retrieve env n video_id) ;;
  (* the log line reads [video.status] *)
  lift (required video "status") ;;;
  lift (_convert_to_video_job video).

Definition max_interval : Z := 10.

Definition terminal (s : Status) : bool :=
  status_eqb s completed || status_eqb s failed.

(** The body of [while True], unrolled at most [fuel] times. *)
Fixpoint poll_loop (fuel : nat) (video_id : string) (timeout : Z)
    (start_time : Z) (current_interval : Z) : M VideoJob :=
  match fuel with
  | O => fun w => (w, OutOfFuel)
  | S fuel' =>
      now <- loop_time ;;
      let elapsed := now - start_time in
      if elapsed >? 1000 * timeout then
        raise (TimeoutError
                 ("Polling timeout after " +:+ str_int timeout
                    +:+ " seconds"))
      else
        video <- get_video_status video_id ;;
        if terminal (status video) then ret video
        else
          asyncio_sleep current_interval ;;;
          poll_loop fuel' video_id timeout start_time
            (Z.min (current_interval * 2) max_interval)
  end.

Definition poll_until_complete (fuel : nat) (video_id : string)
    (timeout : Z) (poll_interval : Z) : M VideoJob :=
  start_time <- loop_time ;;
  poll_loop fuel video_id timeout start_time poll_interval.

(** Whatever form the SDK's answer takes (a stream, a response or the
    bytes themselves), its bytes are what is returned. *)
Definition download_video_content (video_id variant : string)
    : M (list byte) :=
  upstream (EvDownload video_id variant)
    (fun n => videos_download_content env n video_id variant).

(** [{"id": video_id, "object": "video", "deleted": True}] *)
Definition delete_video (video_id : string)
    : M (string * string * bool) :=
  upstream (EvDelete video_id) (fun n => videos_delete env n video_id) ;;;
  ret (video_id, "video", true).

Definition remix_video (video_id prompt : string) : M VideoJob :=
  video <- upstream (EvRemix video_id prompt)
             (fun n => videos_remix env n video_id prompt) ;;
  (* the log line reads [video.id] *)
  lift (required video "id") ;;;
  lift (_convert_to_video_job video).

End Service.

End Sora.

(** ** routers/videos.py *)

Module Router.

(** [Literal["video", "thumbnail", "spritesheet"]], the type of the
    [variant] query parameter. *)
Inductive Variant : Type := Video | Thumbnail | Spritesheet.

Definition variant_str (v : Variant) : string :=
  match v with
  | Video => "video"
  | Thumbnail => "thumbnail"
  | Spritesheet => "spritesheet"
  end.

Record StreamingResponse : Type := mkStreamingResponse {
  content : list byte;
  media_type : string;
  content_disposition : string
}.

(** models/video_request.py *)
Record RemixVideoRequest : Type := mkRemixVideoRequest {
  prompt : string
}.

(** What the client receives: the body with the status code of the
    route, or the status code and detail of an [HTTPException]; any other
    exception leaving a handler is a plain 500. *)
Inductive reply (A : Type) : Type :=
  | Reply (code : Z) (body : A)
  | Failure (code : Z) (detail : string)
  | Pending.
Arguments Reply {A} code body.
Arguments Failure {A} code detail.
Arguments Pending {A}.

Definition respond {A} (success : Z) (o : outcome A) : reply A :=
  match o with
  | Return a => Reply success a
  | Raise (HTTPException c d) => Failure c d
  | Raise _ => Failure 500 "Internal Server Error"
  | OutOfFuel => Pending
  end.

(** The closing lines of every [except Exception as e] block. *)
Definition http_error (video_id what : string) (e : exn) : exn :=
  if str_contains "not found" (str_lower (str_exn e))
     || str_contains "404" (str_exn e)
  then HTTPException 404 ("Video " +:+ video_id +:+ " not found")
  else HTTPException 500 (what +:+ str_exn e).

(** [storage_service], acting on the directory of the world. *)
Definition storage_get_video_path (video_id variant : string)
    : M (option string) :=
  fun w => (w, Return (Storage.get_video_path video_id variant (disk w))).

Definition storage_save_video (video_id : string) (data : list byte)
    (variant : string) : M string :=
  fun w =>
    let '(fs, path) := Storage.save_video video_id data variant (disk w) in
    ({| clock := clock w; nreads := nreads w; ncalls := ncalls w;
        nsleeps := nsleeps w;
        trace := trace w ++ [EvSave path];
        disk := fs |},
     Return path).

Definition storage_delete_video_files (video_id : string) : M Z :=
  fun w =>
    let '(fs, n) := Storage.delete_video_files video_id (disk w) in
    ({| clock := clock w; nreads := nreads w; ncalls := ncalls w;
        nsleeps := nsleeps w;
        trace := trace w
                 ++ map EvUnlink (Storage.glob (video_id +:+ "_*") (disk w));
        disk := fs |},
     Return n).

(** [with open(local_path, "rb") as f: content = f.read()] *)
Definition read_file (path : string) : M (list byte) :=
  fun w =>
    match disk w !! path with
    | Some data =>
        ({| clock := clock w; nreads := nreads w; ncalls := ncalls w;
            nsleeps := nsleeps w;
            trace := trace w ++ [EvRead path];
            disk := disk w |},
         Return data)
    | None =>
        (w, Raise (FileNotFoundError
                     ("[Errno 2] No such file or directory: '"
                        +:+ path +:+ "'")))
    end.

Section Handlers.
Variable env : Env.

(** [GET /{video_id}] *)
Definition get_video_status (video_id : string) : M VideoJob :=
  try_except (Sora.get_video_status env video_id)
    (fun e =>
       raise (http_error video_id "Failed to fetch video status: " e)).

(** [GET /{video_id}/poll], [timeout: int = Query(300, ge=1, le=600)]:
    a value outside the bounds is turned down before the body runs. *)
Definition poll_video (fuel : nat) (video_id : string) (timeout : Z)
    : M VideoJob :=
  if (timeout <? 1) || (600 <? timeout) then
    raise (HTTPException 422 "Unprocessable Entity")
  else
    try_except (Sora.poll_until_complete env fuel video_id timeout 2)
      (fun e =>
         match e with
         | TimeoutError _ => raise (HTTPException 504 (str_exn e))
         | _ => raise (http_error video_id "Failed to poll video: " e)
         end).

(** [GET /{video_id}/content] *)
Definition download_video_content (video_id : string)
    (variant : Variant) : M StreamingResponse :=
  let variant := variant_str variant in
  try_except
    (video <- Sora.get_video_status env video_id ;;
     if negb (status_eqb (status video) completed) then
       raise (HTTPException 409
                ("Video is not ready for download. Current status: "
                   +:+ status_str (status video)))
     else
       local_path <- storage_get_video_path video_id variant ;;
       data <- match local_path with
               | Some path => read_file path
               | None =>
                   data <- Sora.download_video_content env video_id
                             variant ;;
                   storage_save_video video_id data variant ;;;
                   ret data
               end ;;
       ret {| content := data;
              media_type := Storage.get_content_type variant;
              content_disposition :=
                "attachment; filename=" +:+ dquote +:+ video_id +:+ "_"
                  +:+ variant +:+ "." +:+ variant +:+ dquote |})
    (fun e =>
       match e with
       | HTTPException _ _ => raise e
       | _ =>
           raise (http_error video_id
                    "Failed to download video content: " e)
       end).

(** [DELETE /{video_id}] *)
Definition delete_video (video_id : string)
    : M (string * string * bool) :=
  try_except
    (result <- Sora.delete_video env video_id ;;
     deleted_files <- storage_delete_video_files video_id ;;
     ret result)
    (fun e => raise (http_error video_id "Failed to delete video: " e)).

(** [POST /{video_id}/remix] *)
Definition remix_video (video_id : string) (request : RemixVideoRequest)
    : M VideoJob :=
  try_except
    (source_video <- Sora.get_video_status env video_id ;;
     if negb (status_eqb (status source_video) completed) then
       raise (HTTPException 400
                ("Source video must be completed. Current status: "
                   +:+ status_str (status source_video)))
     else
       Sora.remix_video env video_id (prompt request))
    (fun e =>
       match e with
       | HTTPException _ _ => raise e
       | _ => raise (http_error video_id "Failed to create remix: " e)
       end).

End Handlers.

End Router.

(** ** Vocabulary of the statements *)

(** A job id none of whose characters is special in a glob pattern. *)
Fixpoint glob_literal (s : string) : bool :=
  match s with
  | EmptyString => true
  | String c s' =>
      negb (Ascii.eqb c "*") && negb (Ascii.eqb c "?")
      && negb (Ascii.eqb c "[") && glob_literal s'
  end.

(** No path separator in the string. *)
Fixpoint slash_free (s : string) : bool :=
  match s with
  | EmptyString => true
  | String c s' => negb (Storage.sep c) && slash_free s'
  end.

(** No path separator and no NUL character in the string. *)
Fixpoint name_chars (s : string) : bool :=
  match s with
  | EmptyString => true
  | String c s' =>
      negb (Storage.sep c) && negb (Ascii.eqb c Ascii.zero) && name_chars s'
  end.

(** A string that can be part of a file name: it has no path separator
    and no NUL character, and is at most 100 bytes long.  The name
    [f"{video_id}_{variant}{ext}"] made from such an id and variant is one
    path component (it is not [.] or [..], having an underscore) of no
    more than the 255 bytes a file system allows, that is a file of the
    storage directory itself. *)
Definition path_safe (s : string) : bool :=
  name_chars s && (String.length s <=? 100)%nat.

(** No underscore in the string. *)
Fixpoint underscore_free (s : string) : bool :=
  match s with
  | EmptyString => true
  | String c s' => negb (Ascii.eqb c "_") && underscore_free s'
  end.

(** [name] is [p] followed by a rest without path separator. *)
Fixpoint extends (p name : string) : bool :=
  match p with
  | EmptyString => slash_free name
  | String a p' =>
      match name with
      | EmptyString => false
      | String b name' => Ascii.eqb a b && extends p' name'
      end
  end.

(** The three assets of one job saved one after the other. *)
Definition save_all (video_id : string) (b1 b2 b3 : list byte)
    (fs : gmap string (list byte)) : gmap string (list byte) :=
  fst (Storage.save_video video_id b3 "spritesheet"
         (fst (Storage.save_video video_id b2 "thumbnail"
                 (fst (Storage.save_video video_id b1 "video" fs))))).

(** The wait before the [k]-th retry when the first wait is
    [poll_interval]: each one doubles the one before, up to the ceiling. *)
Fixpoint backoff (poll_interval : Z) (k : nat) : Z :=
  match k with
  | O => poll_interval
  | S k' => Z.min (backoff poll_interval k' * 2) Sora.max_interval
  end.

(** The events of [n] rounds of polling that found the job unfinished. *)
Fixpoint rounds (video_id : string) (poll_interval : Z) (from n : nat)
    : list event :=
  match n with
  | O => []
  | S n' =>
      EvRetrieve video_id :: EvSleep (backoff poll_interval from)
        :: rounds video_id poll_interval (S from) n'
  end.

Definition is_sleep (e : event) : option Z :=
  match e with EvSleep s => Some s | _ => None end.

(** The sleeps of a trace, in order. *)
Definition sleeps_of (tr : list event) : list Z := omap is_sleep tr.

Definition is_download (e : event) : bool :=
  match e with EvDownload _ _ => true | _ => false end.

Definition is_save (e : event) : bool :=
  match e with EvSave _ => true | _ => false end.

Definition is_unlink (e : event) : bool :=
  match e with EvUnlink _ => true | _ => false end.

Definition is_remix (e : event) : bool :=
  match e with EvRemix _ _ => true | _ => false end.

(** How many events of one kind a trace holds. *)
Definition count (kind : event -> bool) (tr : list event) : nat :=
  length (List.filter kind tr).

(** What [get_video_status] obtains from the [n]-th upstream call. *)
Definition retrieved (env : Env) (n : nat) (video_id : string)
    : exn + VideoJob :=
  Sora.and_then (videos_retrieve env n video_id) (fun video =>
  Sora.and_then (Sora.required video "status") (fun _ =>
  Sora._convert_to_video_job env video)).

(** The world after one more upstream call. *)
Definition called (env : Env) (ev : event) (w : World) : World :=
  {| clock := clock w + latency env (ncalls w);
     nreads := nreads w;
     ncalls := S (ncalls w);
     nsleeps := nsleeps w;
     trace := trace w ++ [ev];
     disk := disk w |}.

(** The world after the clock was read once more. *)
Definition ticked (env : Env) (w : World) : World :=
  {| clock := clock w + tick env (nreads w);
     nreads := S (nreads w);
     ncalls := ncalls w;
     nsleeps := nsleeps w;
     trace := trace w;
     disk := disk w |}.

(** The world after one more sleep. *)
Definition slept (env : Env) (secs : Z) (w : World) : World :=
  {| clock := clock w + 1000 * Z.max secs 0 + oversleep env (nsleeps w);
     nreads := nreads w;
     ncalls := ncalls w;
     nsleeps := S (nsleeps w);
     trace := trace w ++ [EvSleep secs];
     disk := disk w |}.

(** The job never reaches a terminal state: whenever it is retrieved, the
    provider answers, and the job is neither completed nor failed. *)
Definition stays_unfinished (env : Env) (video_id : string) : Prop :=
  forall n, exists job,
    retrieved env n video_id = inr job
    /\ Sora.terminal (status job) = false.

(** Time does not run backwards: no call, clock reading or sleep takes
    less than no time. *)
Definition causal (env : Env) : Prop :=
  forall n, 0 <= latency env n /\ 0 <= tick env n /\ 0 <= oversleep env n.

(** Calls and clock readings take no time; a sleep may still end late. *)
Definition immediate (env : Env) : Prop :=
  forall n, latency env n = 0 /\ tick env n = 0.

(** Calls and clock readings take no time and sleeps end on the dot. *)
Definition instantaneous (env : Env) : Prop :=
  forall n, latency env n = 0 /\ tick env n = 0 /\ oversleep env n = 0.

(** What the last of [n] rounds of polling took beyond the time the job
    was last checked in time: the sleep with its overshoot and the
    retrieve before it (nothing when there was no round), and the time up
    to the next clock reading.  The rounds start in world [w] with first
    wait [poll_interval]. *)
Definition overrun (env : Env) (w : World) (poll_interval : Z) (n : nat)
    : Z :=
  match n with
  | O => 0
  | S m =>
      1000 * Z.max (backoff poll_interval m) 0
      + latency env (ncalls w + m) + oversleep env (nsleeps w + m)
  end
  + tick env (S (nreads w + n)).

(** The exception [poll_until_complete] raises at the deadline. *)
Definition timeout_error (timeout : Z) : exn :=
  TimeoutError ("Polling timeout after " +:+ str_int timeout +:+ " seconds").

(** What [remix_video] obtains from the [n]-th upstream call. *)
Definition remixed (env : Env) (n : nat) (video_id prompt : string)
    : exn + VideoJob :=
  Sora.and_then (videos_remix env n video_id prompt) (fun video =>
  Sora.and_then (Sora.required video "id") (fun _ =>
  Sora._convert_to_video_job env video)).

(** The response of the content route that carries [data]. *)
Definition served (video_id : string) (variant : Router.Variant)
    (data : list byte) : Router.StreamingResponse :=
  {| Router.content := data;
     Router.media_type :=
       Storage.get_content_type (Router.variant_str variant);
     Router.content_disposition :=
       "attachment; filename=" +:+ dquote +:+ video_id +:+ "_"
         +:+ Router.variant_str variant +:+ "."
         +:+ Router.variant_str variant +:+ dquote |}.

(** The file of the cache that belongs to a job and a variant. *)
Definition cache_path (video_id : string) (variant : Router.Variant)
    : string :=
  Storage.filename video_id (Router.variant_str variant).

(** ** Sample surroundings *)

Module Samples.

Definition job_obj (job_id st : string) : pyval :=
  PObj [("id", PStr job_id); ("status", PStr st); ("model", PStr "sora-2");
        ("created_at", PInt 1758941485); ("size", PStr "1280x720");
        ("seconds", PInt 8)].

(** A library for the samples: a string of decimal digits is read as
    the number it writes, and the report on rejected arguments is reduced
    to a headline. *)
Fixpoint digits (s : string) (acc : Z) : option Z :=
  match s with
  | EmptyString => Some acc
  | String c s' =>
      let n := Z.of_nat (nat_of_ascii c) in
      if (48 <=? n) && (n <=? 57) then digits s' (10 * acc + (n - 48))
      else None
  end.

Definition reads_digits (s : string) : option Z :=
  match s with
  | EmptyString => None
  | _ => digits s 0
  end.

Definition headline (name : string) (kwargs : list (string * pyval))
    : string :=
  "1 validation error for " +:+ name.

(** A provider whose job [v1] stays in state [st]; every call takes
    [lat] ms and the clock moves [tk] ms before each reading. *)
Definition steady (st : string) (lat tk : Z) : Env :=
  {| videos_retrieve := fun _ video_id => inr (job_obj video_id st);
     videos_download_content := fun _ _ _ => inr [x01; x02; x03];
     videos_delete := fun _ _ => inr tt;
     videos_remix := fun _ _ _ => inr (job_obj "v2" "queued");
     latency := fun _ => lat;
     tick := fun _ => tk;
     oversleep := fun _ => 0;
     int_of_str := reads_digits;
     validation_report := headline |}.

Definition boot : World := mkWorld 0 0 0 0 [] ∅.

(** The job [job_obj "v1" st] is converted into. *)
Definition job_in (st : Status) : VideoJob :=
  mkVideoJob "v1" "video" st "sora-2" None 1758941485 None None
    "1280x720" "8" None None.

Definition queued_job : VideoJob := job_in queued.

(** The directory after the video of [v1] was cached. *)
Definition cached : World :=
  mkWorld 0 0 0 0 [] (<["v1_video.mp4" := [x01; x02; x03]]> ∅).

(** The directory after the video of job [v1_x] was cached, and after
    that of [v1] was cached as well. *)
Definition other_job : gmap string (list byte) :=
  fst (Storage.save_video "v1_x" [x07] "video" ∅).

Definition two_jobs : gmap string (list byte) :=
  fst (Storage.save_video "v1" [x01] "video" other_job).

End Samples.

(** ** config.py *)

Module Config.

Record Settings : Type := mkSettings {
  openai_api_key : string;
  video_storage_path : string;
  max_poll_timeout : Z;
  default_model : string;
  default_size : string;
  default_seconds : Z;
  max_file_size : Z
}.

(** The settings when the environment provides the key alone. *)
Definition defaults (api_key : string) : Settings :=
  {| openai_api_key := api_key;
     video_storage_path := "./videos";
     max_poll_timeout := 600;
     default_model := "sora-2";
     default_size := "1280x720";
     default_seconds := 4;
     max_file_size := 10485760 |}.

End Config.

(** ** sora_service.py and routers/videos.py: creating and listing *)

Module Catalogue.

(** A keyword argument of a call of the provider's client. *)
Inductive arg : Type :=
  | AStr (s : string)
  | AInt (n : Z)
  | ABytes (b : list byte).

(** A page of the provider's list: its entries and the flag, which the
    object may lack. *)
Record Page : Type := mkPage {
  page_data : list pyval;
  page_has_more : option bool
}.

(** What the provider answers to the [n]-th upstream call when that call
    is a create or a list with the given keyword arguments. *)
Record Provider : Type := mkProvider {
  videos_create : nat -> gmap string arg -> exn + pyval;
  videos_list : nat -> gmap string arg -> exn + Page
}.

(** models/video_response.py *)
Record VideoListResponse : Type := mkVideoListResponse {
  list_object : string;
  list_data : list VideoJob;
  list_has_more : bool
}.

(** [Literal["sora-2", "sora-2-pro"]] and [Literal["asc", "desc"]], the
    types of two parameters of the routes. *)
Inductive ModelName : Type := Sora2 | Sora2Pro.

Definition model_str (m : ModelName) : string :=
  match m with
  | Sora2 => "sora-2"
  | Sora2Pro => "sora-2-pro"
  end.

Inductive Order : Type := Asc | Desc.

Definition order_str (o : Order) : string :=
  match o with
  | Asc => "asc"
  | Desc => "desc"
  end.

(** An uploaded file: the name and content type its part of the form
    declares, and its bytes. *)
Record UploadFile : Type := mkUploadFile {
  upload_filename : option string;
  upload_content_type : option string;
  upload_body : list byte
}.

(** [[self._convert_to_video_job(v) for v in page.data]] *)
Fixpoint convert_all (env : Env) (vs : list pyval)
    : exn + list VideoJob :=
  match vs with
  | [] => inr []
  | v :: rest =>
      Sora.and_then (Sora._convert_to_video_job env v) (fun job =>
      Sora.and_then (convert_all env rest) (fun jobs => inr (job :: jobs)))
  end.

Section Service.
Variable provider : Provider.
Variable env : Env.

(** An awaited create or list: it counts as an upstream call and takes
    its time; the trace, which records the calls and file operations the
    cache is concerned with, is left as it is. *)
Definition awaited {A} (answer : nat -> exn + A) : M A :=
  fun w =>
    ({| clock := clock w + latency env (ncalls w);
        nreads := nreads w;
        ncalls := S (ncalls w);
        nsleeps := nsleeps w;
        trace := trace w;
        disk := disk w |},
     match answer (ncalls w) with
     | inl e => Raise e
     | inr a => Return a
     end).

(** The keyword arguments of [client.videos.create]. *)
Definition create_params (prompt model : string) (seconds : Z)
    (size : string) (input_reference : option (list byte))
    : gmap string arg :=
  let params :=
    <["model" := AStr model]> (<["prompt" := AStr prompt]>
      (<["seconds" := AStr (str_int seconds)]>
        (<["size" := AStr size]> ∅))) in
  match input_reference with
  | Some (b :: bs) => <["input_reference" := ABytes (b :: bs)]> params
  | _ => params
  end.

Definition create_video (prompt model : string) (seconds : Z)
    (size : string) (input_reference : option (list byte)) : M VideoJob :=
  video <- awaited (fun n =>
             videos_create provider n
               (create_params prompt model seconds size input_reference)) ;;
  (* the log line reads [video.id] and [video.status] *)
  lift (Sora.required video "id") ;;;
  lift (Sora.required video "status") ;;;
  lift (Sora._convert_to_video_job env video).

(** The keyword arguments of [client.videos.list]. *)
Definition list_params (limit : Z) (after : option string)
    (order : string) : gmap string arg :=
  let params := <["limit" := AInt limit]> (<["order" := AStr order]> ∅) in
  match after with
  | Some (String c s) => <["after" := AStr (String c s)]> params
  | _ => params
  end.

Definition list_videos (limit : Z) (after : option string)
    (order : string) : M (list VideoJob * bool) :=
  page <- awaited (fun n =>
            videos_list provider n (list_params limit after order)) ;;
  videos <- lift (convert_all env (page_data page)) ;;
  ret (videos, default false (page_has_more page)).

End Service.

Section Routes.
Variable settings : Config.Settings.
Variable provider : Provider.
Variable env : Env.

(** [not content_type or not content_type.startswith("image/")] *)
Definition not_an_image (content_type : option string) : bool :=
  match content_type with
  | None => true
  | Some s => String.eqb s "" || negb (starts_with "image/" s)
  end.

(** The checks of an uploaded reference image, in the order they are
    made. *)
Definition check_reference (input_reference : option UploadFile)
    : M (option (list byte)) :=
  match input_reference with
  | None => ret None
  | Some file =>
      let data := upload_body file in
      if Z.of_nat (length data) >? Config.max_file_size settings then
        raise (HTTPException 413
                 ("File too large. Maximum size is "
                    +:+ str_int (Config.max_file_size settings)
                    +:+ " bytes"))
      else if not_an_image (upload_content_type file) then
        raise (HTTPException 400
                 "Input reference must be an image (JPEG, PNG, or WebP)")
      else ret (Some data)
  end.

(** [POST] on the collection *)
Definition create_video_route (prompt : string) (model : ModelName)
    (seconds : Z) (size : string) (input_reference : option UploadFile)
    : M VideoJob :=
  try_except
    (if negb ((seconds =? 4) || (seconds =? 8) || (seconds =? 12)) then
       raise (HTTPException 400
                ("Invalid duration. Must be 4, 8, or 12 seconds, got "
                   +:+ str_int seconds))
     else
       reference_bytes <- check_reference input_reference ;;
       create_video provider env prompt (model_str model) seconds size
         reference_bytes)
    (fun e =>
       match e with
       | HTTPException _ _ => raise e
       | _ => raise (HTTPException 500
                       ("Failed to create video: " +:+ str_exn e))
       end).

(** [GET] on the collection, [limit: int = Query(20, ge=1, le=100)] *)
Definition list_videos_route (limit : Z) (after : option string)
    (order : Order) : M VideoListResponse :=
  if (limit <? 1) || (100 <? limit) then
    raise (HTTPException 422 "Unprocessable Entity")
  else
    try_except
      (r <- list_videos provider env limit after (order_str order) ;;
       ret {| list_object := "list";
              list_data := fst r;
              list_has_more := snd r |})
      (fun e =>
         raise (HTTPException 500
                  ("Failed to list videos: " +:+ str_exn e))).

End Routes.

End Catalogue.

(** ** More vocabulary *)

(** The total of the first [k] waits, in seconds. *)
Fixpoint waited (poll_interval : Z) (k : nat) : Z :=
  match k with
  | O => 0
  | S k' => waited poll_interval k' + Z.max (backoff poll_interval k') 0
  end.

(** A provider for [Catalogue] that answers every create with the job
    [v1] queued and every list with a page of two jobs. *)
Definition sample_provider : Catalogue.Provider :=
  {| Catalogue.videos_create := fun _ _ => inr (Samples.job_obj "v1" "queued");
     Catalogue.videos_list := fun _ _ =>
       inr {| Catalogue.page_data :=
                [Samples.job_obj "v1" "completed";
                 Samples.job_obj "v2" "queued"];
              Catalogue.page_has_more := None |} |}.

(** A provider whose job is in progress for the first [k] upstream calls
    and completed from then on; nothing takes time but the sleeps. *)
Definition finishes_at (k : nat) : Env :=
  {| videos_retrieve := fun n video_id =>
       inr (Samples.job_obj video_id
              (if (n <? k)%nat then "in_progress" else "completed"));
     videos_download_content := fun _ _ _ => inr [x01; x02; x03];
     videos_delete := fun _ _ => inr tt;
     videos_remix := fun _ _ _ => inr (Samples.job_obj "v2" "queued");
     latency := fun _ => 0;
     tick := fun _ => 0;
     oversleep := fun _ => 0;
     int_of_str := Samples.reads_digits;
     validation_report := Samples.headline |}.

(** A provider whose job [v1] is completed but whose downloads fail. *)
Definition failing_download : Env :=
  {| videos_retrieve := fun _ video_id =>
       inr (Samples.job_obj video_id "completed");
     videos_download_content := fun _ _ _ =>
       inl (OpenAIError "Connection error.");
     videos_delete := fun _ _ => inl (OpenAIError "Error code: 404");
     videos_remix := fun _ _ _ => inl (OpenAIError "Connection error.");
     latency := fun _ => 0;
     tick := fun _ => 0;
     oversleep := fun _ => 0;
     int_of_str := Samples.reads_digits;
     validation_report := Samples.headline |}.

(** The value [v] given for a field declared [int] is read as [n]: it is
    that integer, or a string the library converts to it. *)
Definition read_as_int (env : Env) (v : pyval) (n : Z) : Prop :=
  v = PInt n \/ exists s, v = PStr s /\ int_of_str env s = Some n.

(** A job whose numbers the provider reports as text, and the job it is
    converted into. *)
Definition texty_job_obj : pyval :=
  PObj [("id", PStr "v7"); ("status", PStr "in_progress");
        ("model", PStr "sora-2"); ("progress", PStr "50");
        ("created_at", PStr "1758941485"); ("size", PStr "1280x720")].

Definition texty_job_converted : VideoJob :=
  mkVideoJob "v7" "video" in_progress "sora-2" (Some 50) 1758941485 None
    None "1280x720" "4" None None.

(** A failed job as the provider reports it, its error lacking a
    message, and the job it is converted into. *)
Definition failed_job_obj : pyval :=
  PObj [("id", PStr "v9"); ("status", PStr "failed"); ("model", PStr "sora-2");
        ("created_at", PInt 1758941485); ("size", PStr "1280x720");
        ("error", PObj [("type", PStr "moderation")])].

Definition failed_job_converted : VideoJob :=
  mkVideoJob "v9" "video" failed "sora-2" None 1758941485 None None
    "1280x720" "4" None
    (Some {| message := "Unknown error"; type_ := "moderation" |}).

(** A create request passes the checks of the route: the duration is one
    of the three allowed, and a reference image, if there is one, is small
    enough and declared as an image. *)
Definition acceptable (settings : Config.Settings) (seconds : Z)
    (input_reference : option Catalogue.UploadFile) : bool :=
  ((seconds =? 4) || (seconds =? 8) || (seconds =? 12))
  && match input_reference with
     | None => true
     | Some file =>
         (Z.of_nat (length (Catalogue.upload_body file))
            <=? Config.max_file_size settings)
         && negb (Catalogue.not_an_image
                    (Catalogue.upload_content_type file))
     end.

(** What [create_video] obtains from the [n]-th upstream call. *)
Definition created (env : Env) (provider : Catalogue.Provider) (n : nat)
    (params : gmap string Catalogue.arg) : exn + VideoJob :=
  Sora.and_then (Catalogue.videos_create provider n params) (fun video =>
  Sora.and_then (Sora.required video "id") (fun _ =>
  Sora.and_then (Sora.required video "status") (fun _ =>
  Sora._convert_to_video_job env video))).

(** The world after an upstream call that leaves no event. *)
Definition answered (env : Env) (w : World) : World :=
  {| clock := clock w + latency env (ncalls w);
     nreads := nreads w;
     ncalls := S (ncalls w);
     nsleeps := nsleeps w;
     trace := trace w;
     disk := disk w |}.

(** An upload of three bytes declared as a PNG image, and one that is
    empty. *)
Definition png_upload : Catalogue.UploadFile :=
  {| Catalogue.upload_filename := Some "ref.png";
     Catalogue.upload_content_type := Some "image/png";
     Catalogue.upload_body := [x89; x50; x4e] |}.

Definition empty_upload : Catalogue.UploadFile :=
  {| Catalogue.upload_filename := Some "ref.png";
     Catalogue.upload_content_type := Some "image/png";
     Catalogue.upload_body := [] |}.

(** A page whose second entry has a status the job model does not know. *)
Definition odd_page_provider : Catalogue.Provider :=
  {| Catalogue.videos_create := fun _ _ => inl (OpenAIError "video not found");
     Catalogue.videos_list := fun _ _ =>
       inr {| Catalogue.page_data :=
                [Samples.job_obj "v1" "completed";
                 Samples.job_obj "v2" "cancelled";
                 Samples.job_obj "v3" "queued"];
              Catalogue.page_has_more := Some true |} |}.

(** The keyword arguments the create route sends for a request. *)
Definition sent (prompt : string) (model : Catalogue.ModelName)
    (seconds : Z) (size : string)
    (input_reference : option Catalogue.UploadFile)
    : gmap string Catalogue.arg :=
  Catalogue.create_params prompt (Catalogue.model_str model) seconds size
    (option_map Catalogue.upload_body input_reference).

(** * Properties *)

(** ** Strings *)

Lemma append_cons (c : ascii) (s t : string) :
  String c s +:+ t = String c (s +:+ t).
Proof. reflexivity. Qed.

Lemma append_nil (t : string) : "" +:+ t = t.
Proof. reflexivity. Qed.

Lemma append_inj_l (s a b : string) : s +:+ a = s +:+ b -> a = b.
Proof.
  induction s as [|c s IH]; [done|].
  rewrite !append_cons. intros H. injection H as H. auto.
Qed.

Lemma append_assoc (a b c : string) : (a +:+ b) +:+ c = a +:+ (b +:+ c).
Proof.
  induction a as [|x a IH]; [done|].
  rewrite !append_cons. by f_equal.
Qed.

Lemma slash_free_app (a b : string) :
  slash_free (a +:+ b) = slash_free a && slash_free b.
Proof.
  induction a as [|x a IH]; [done|].
  rewrite append_cons. simpl. rewrite IH. by rewrite andb_assoc.
Qed.

Lemma underscore_free_app (a b : string) :
  underscore_free (a +:+ b) = underscore_free a && underscore_free b.
Proof.
  induction a as [|x a IH]; [done|].
  rewrite append_cons. simpl. rewrite IH. by rewrite andb_assoc.
Qed.

(** ** The glob pattern of [delete_video_files] *)

Module GlobFacts.
Import Storage.

Lemma glob_match_star (s : string) : glob_match [GStar] s = slash_free s.
Proof.
  induction s as [|c s IH]; [done|].
  change (glob_match [GStar] (String c s))
    with (false || (negb (sep c) && glob_match [GStar] s)).
  by rewrite IH.
Qed.

Lemma glob_tokens_literal_cons (c : ascii) (s : string) :
  negb (Ascii.eqb c "*") && negb (Ascii.eqb c "?") && negb (Ascii.eqb c "[")
    = true ->
  glob_tokens (String c s) = GLit c :: glob_tokens s.
Proof.
  intros H. unfold glob_tokens. simpl.
  destruct (Ascii.eqb c "*"); [done|].
  destruct (Ascii.eqb c "?"); [done|].
  destruct (Ascii.eqb c "["); [done|]. done.
Qed.

(** For an id without special characters the pattern selects the names
    that continue [video_id_] within the directory. *)
Lemma glob_match_literal (video_id name : string) :
  glob_literal video_id = true ->
  glob_match (glob_tokens (video_id +:+ "_*")) name
    = extends (video_id +:+ "_") name.
Proof.
  revert name. induction video_id as [|c s IH]; intros name Hlit.
  - destruct name as [|b name]; [done|].
    change (glob_match (glob_tokens ("" +:+ "_*")) (String b name))
      with (Ascii.eqb "_" b && glob_match [GStar] name).
    by rewrite glob_match_star.
  - simpl in Hlit. apply andb_prop in Hlit as [Hc Hs].
    change (String c s +:+ "_*") with (String c (s +:+ "_*")).
    rewrite glob_tokens_literal_cons by done.
    destruct name as [|b name]; [done|].
    simpl. by rewrite IH.
Qed.

Lemma fold_unlink (l : list string) (fs : files) (n : Z) :
  fold_left unlink_step l (fs, n)
    = (fold_left (fun m k => delete k m) l fs, n + Z.of_nat (length l)).
Proof.
  revert fs n. induction l as [|k l IH]; intros fs n; simpl.
  - f_equal. lia.
  - unfold unlink_step at 2. simpl. rewrite IH. f_equal. lia.
Qed.

Lemma lookup_fold_delete (l : list string) (fs : files) (k : string) :
  fold_left (fun m k => delete k m) l fs !! k
    = if decide (k ∈ l) then None else fs !! k.
Proof.
  revert fs. induction l as [|x l IH]; intros fs; cbn [fold_left].
  - destruct (decide (k ∈ [])) as [H|H]; [|done].
    by apply not_elem_of_nil in H.
  - rewrite IH. destruct (decide (k ∈ l)) as [Hin|Hnin].
    + destruct (decide (k ∈ x :: l)) as [H|H]; [done|].
      destruct H. apply elem_of_cons; by right.
    + destruct (decide (k = x)) as [->|Hne].
      * rewrite lookup_delete_eq.
        destruct (decide (x ∈ x :: l)) as [H|H]; [done|].
        destruct H. apply elem_of_cons; by left.
      * rewrite lookup_delete_ne by done.
        destruct (decide (k ∈ x :: l)) as [H|H]; [|done].
        apply elem_of_cons in H as [?|?]; done.
Qed.

Lemma elem_of_glob (pattern : string) (fs : files) (name : string) :
  name ∈ glob pattern fs
  <-> glob_match (glob_tokens pattern) name = true /\ is_Some (fs !! name).
Proof.
  unfold glob. rewrite list_elem_of_filter.
  rewrite list_elem_of_fmap. split.
  - intros [Hm [[k v] [-> Hin]]]. split; [done|].
    apply elem_of_map_to_list in Hin. by exists v.
  - intros [Hm [v Hv]]. split; [done|].
    exists (name, v). split; [done|]. by apply elem_of_map_to_list.
Qed.

Lemma length_glob (pattern : string) (fs : files) :
  length (glob pattern fs)
    = size (filter (fun kv : string * list byte =>
                      glob_match (glob_tokens pattern) kv.1 = true) fs).
Proof.
  unfold glob. induction fs as [|k v fs Hk IH] using map_ind.
  - by rewrite map_to_list_empty, map_filter_empty, map_size_empty.
  - rewrite map_to_list_insert by done. rewrite fmap_cons. simpl.
    rewrite map_filter_insert. simpl. rewrite filter_cons. simpl.
    destruct (decide (glob_match (glob_tokens pattern) k = true)).
    + simpl. rewrite IH. rewrite map_size_insert_None; [done|].
      apply map_lookup_filter_None. by left.
    + rewrite IH. by rewrite delete_id.
Qed.

(** [delete_video_files] removes the files the pattern selects and
    counts them. *)
Lemma delete_video_files_spec (video_id : string) (fs : files) :
  delete_video_files video_id fs
    = (filter (fun kv : string * list byte =>
                 glob_match (glob_tokens (video_id +:+ "_*")) kv.1 <> true)
         fs,
       Z.of_nat
         (size (filter (fun kv : string * list byte =>
                          glob_match (glob_tokens (video_id +:+ "_*")) kv.1
                            = true) fs))).
Proof.
  unfold delete_video_files. rewrite fold_unlink. f_equal.
  - apply map_eq. intros k. rewrite lookup_fold_delete.
    apply option_eq. intros v. rewrite map_lookup_filter_Some. simpl.
    destruct (decide (k ∈ glob (video_id +:+ "_*") fs)) as [Hin|Hnin].
    + apply elem_of_glob in Hin as [Hm _]. split; [done|].
      intros [_ Hc]. done.
    + split.
      * intros Hv. split; [done|]. intros Hm. apply Hnin.
        apply elem_of_glob. split; [done|]. by exists v.
      * by intros [Hv _].
  - rewrite length_glob. lia.
Qed.
End GlobFacts.

Module NameFacts.
Import Storage GlobFacts.

Lemma extends_cons (a b : ascii) (p name : string) :
  extends (String a p) (String b name) = Ascii.eqb a b && extends p name.
Proof. reflexivity. Qed.

Lemma extends_append (p rest : string) :
  extends p (p +:+ rest) = slash_free rest.
Proof.
  induction p as [|c p IH]; [done|].
  rewrite append_cons, extends_cons. by rewrite Ascii.eqb_refl.
Qed.

Lemma extends_underscore (p t : string) :
  extends (p +:+ "_") t = true -> underscore_free t = false.
Proof.
  revert t. induction p as [|c p IH]; intros [|b t] H; try done.
  - change ("" +:+ "_") with (String "_" "") in H.
    rewrite extends_cons in H.
    apply andb_prop in H as [Hb _]. apply Ascii.eqb_eq in Hb as <-. done.
  - rewrite append_cons, extends_cons in H.
    apply andb_prop in H as [_ H]. cbn [underscore_free].
    rewrite (IH _ H). by rewrite andb_false_r.
Qed.

Lemma extends_other (video_id other t : string) :
  extends (video_id +:+ "_") (other +:+ "_" +:+ t) = true ->
  underscore_free t = true ->
  other = video_id \/ starts_with (video_id +:+ "_") other = true.
Proof.
  revert other. induction video_id as [|a s IH]; intros [|c o] H Ht.
  - by left.
  - right. change ("" +:+ "_") with (String "_" "") in *.
    rewrite append_cons, extends_cons in H.
    apply andb_prop in H as [Hc _]. apply Ascii.eqb_eq in Hc as <-.
    cbn [starts_with]. by rewrite Ascii.eqb_refl.
  - rewrite append_cons, append_nil in H.
    change ("_" +:+ t) with (String "_" t) in H.
    rewrite extends_cons in H.
    apply andb_prop in H as [_ H]. apply extends_underscore in H.
    congruence.
  - rewrite !append_cons, extends_cons in H.
    apply andb_prop in H as [Hc H]. apply Ascii.eqb_eq in Hc as <-.
    destruct (IH _ H Ht) as [->|Hp]; [by left|right].
    rewrite append_cons. cbn [starts_with]. by rewrite Ascii.eqb_refl.
Qed.

Lemma filename_split (video_id variant : string) :
  filename video_id variant
    = (video_id +:+ "_") +:+ (variant +:+ extension variant).
Proof. unfold filename. by rewrite append_assoc. Qed.

Lemma variant_tail (v : Router.Variant) :
  underscore_free (Router.variant_str v +:+ extension (Router.variant_str v))
    = true
  /\ slash_free (Router.variant_str v +:+ extension (Router.variant_str v))
    = true.
Proof. destruct v; split; vm_compute; reflexivity. Qed.
End NameFacts.

(** *** C9 *)

(** C9: the content type and the file extension are functions of the
    variant alone: video gives video/mp4 and .mp4, thumbnail image/webp and
    .webp, spritesheet image/jpeg and .jpg, every other value
    application/octet-stream and .bin; the file name [save_video] and
    [get_video_path] build ends in that extension. *)
Theorem variant_mappings_total (variant : string) :
  Storage.get_content_type variant
    = (if String.eqb variant "video" then "video/mp4"
       else if String.eqb variant "thumbnail" then "image/webp"
       else if String.eqb variant "spritesheet" then "image/jpeg"
       else "application/octet-stream")
  /\ Storage.extension variant
    = (if String.eqb variant "video" then ".mp4"
       else if String.eqb variant "thumbnail" then ".webp"
       else if String.eqb variant "spritesheet" then ".jpg"
       else ".bin")
  /\ (forall video_id data fs,
        snd (Storage.save_video video_id data variant fs)
          = video_id +:+ "_" +:+ variant +:+ Storage.extension variant).
Proof.
  unfold Storage.get_content_type, Storage.extension,
    Storage.content_types, Storage.extensions.
  split; [|split; [|done]].
  - destruct (String.eqb_spec variant "video") as [->|H1]; [done|].
    rewrite lookup_insert_ne by done.
    destruct (String.eqb_spec variant "thumbnail") as [->|H2]; [done|].
    rewrite lookup_insert_ne by done.
    destruct (String.eqb_spec variant "spritesheet") as [->|H3]; [done|].
    rewrite lookup_insert_ne by done. by rewrite lookup_empty.
  - destruct (String.eqb_spec variant "video") as [->|H1]; [done|].
    rewrite lookup_insert_ne by done.
    destruct (String.eqb_spec variant "thumbnail") as [->|H2]; [done|].
    rewrite lookup_insert_ne by done.
    destruct (String.eqb_spec variant "spritesheet") as [->|H3]; [done|].
    rewrite lookup_insert_ne by done. by rewrite lookup_empty.
Qed.

(** *** C7 *)

Module DirFacts.
Import Storage GlobFacts NameFacts.

Lemma no_match_lookup (pattern : string) (fs : files) (k : string) :
  glob pattern fs = [] ->
  glob_match (glob_tokens pattern) k = true -> fs !! k = None.
Proof.
  intros Hnone Hm. destruct (fs !! k) as [v|] eqn:Hk; [|done].
  assert (k ∈ glob pattern fs) as Hin.
  { apply elem_of_glob. split; [done|]. by exists v. }
  rewrite Hnone in Hin. by apply not_elem_of_nil in Hin.
Qed.

Lemma own_file_matches (video_id : string) (v : Router.Variant) :
  glob_literal video_id = true ->
  glob_match (glob_tokens (video_id +:+ "_*"))
    (filename video_id (Router.variant_str v)) = true.
Proof.
  intros Hlit. rewrite glob_match_literal by done.
  rewrite filename_split, extends_append. apply variant_tail.
Qed.

Lemma filename_variant_inj (video_id : string) (v1 v2 : Router.Variant) :
  filename video_id (Router.variant_str v1)
    = filename video_id (Router.variant_str v2) -> v1 = v2.
Proof.
  rewrite !filename_split. intros H%append_inj_l.
  destruct v1, v2; try done; vm_compute in H; discriminate.
Qed.
End DirFacts.

(** C7 (amended): for a job id that can be part of a file name (no path
    separator, no NUL, at most 100 bytes): after [save_video], with a
    variant that can be too, the path [get_video_path] returns exists and
    holds the saved bytes; and when the id has no glob metacharacter either,
    [delete_video_files] returns 0 and leaves the directory alone when no
    file name matches [video_id_*], and, in a directory with no such file
    before, deleting after the three variants were saved removes these
    three files, gives the directory back as it was, and returns 3. *)
Theorem store_save_get_delete (video_id : string)
    (fs : gmap string (list byte)) :
  path_safe video_id = true ->
  (forall data variant,
      path_safe variant = true ->
      Storage.get_video_path video_id variant
        (fst (Storage.save_video video_id data variant fs))
        = Some (snd (Storage.save_video video_id data variant fs))
      /\ fst (Storage.save_video video_id data variant fs)
           !! snd (Storage.save_video video_id data variant fs)
         = Some data)
  /\ (glob_literal video_id = true ->
      Storage.glob (video_id +:+ "_*") fs = [] ->
      Storage.delete_video_files video_id fs = (fs, 0))
  /\ (glob_literal video_id = true ->
      Storage.glob (video_id +:+ "_*") fs = [] ->
      forall b1 b2 b3,
        Storage.delete_video_files video_id (save_all video_id b1 b2 b3 fs)
          = (fs, 3)).
Proof.
  intros _. split; [|split].
  - intros data variant _.
    unfold Storage.save_video, Storage.get_video_path.
    simpl. by rewrite lookup_insert_eq.
  - intros _ Hnone. unfold Storage.delete_video_files. by rewrite Hnone.
  - intros Hlit Hnone b1 b2 b3.
    pose proof (DirFacts.own_file_matches video_id Router.Video Hlit)
      as Ma.
    pose proof (DirFacts.own_file_matches video_id Router.Thumbnail Hlit)
      as Mb.
    pose proof
      (DirFacts.own_file_matches video_id Router.Spritesheet Hlit) as Mc.
    cbn [Router.variant_str] in Ma, Mb, Mc.
    assert (Storage.filename video_id "video"
            <> Storage.filename video_id "thumbnail") as Hab.
    { intros H.
      by apply (DirFacts.filename_variant_inj _
                  Router.Video Router.Thumbnail) in H. }
    assert (Storage.filename video_id "video"
            <> Storage.filename video_id "spritesheet") as Hac.
    { intros H.
      by apply (DirFacts.filename_variant_inj _
                  Router.Video Router.Spritesheet) in H. }
    assert (Storage.filename video_id "thumbnail"
            <> Storage.filename video_id "spritesheet") as Hbc.
    { intros H.
      by apply (DirFacts.filename_variant_inj _
                  Router.Thumbnail Router.Spritesheet) in H. }
    pose proof (DirFacts.no_match_lookup _ _ _ Hnone Ma) as Fa.
    pose proof (DirFacts.no_match_lookup _ _ _ Hnone Mb) as Fb.
    pose proof (DirFacts.no_match_lookup _ _ _ Hnone Mc) as Fc.
    rewrite GlobFacts.delete_video_files_spec.
    unfold save_all, Storage.save_video. cbn [fst snd].
    set (a := Storage.filename video_id "video") in *.
    set (b := Storage.filename video_id "thumbnail") in *.
    set (c := Storage.filename video_id "spritesheet") in *.
    set (toks := Storage.glob_tokens (video_id +:+ "_*")) in *.
    f_equal.
    + apply map_eq. intros k. apply option_eq. intros v.
      rewrite map_lookup_filter_Some. cbn [fst]. split.
      * intros [Hk Hnm].
        rewrite !lookup_insert_ne in Hk by (intros <-; done). done.
      * intros Hk. assert (Storage.glob_match toks k <> true) as Hnm.
        { intros Hm.
          pose proof (DirFacts.no_match_lookup _ _ _ Hnone Hm).
          congruence. }
        split; [|done].
        rewrite !lookup_insert_ne by (intros <-; done). done.
    + rewrite !map_filter_insert_True by done.
      assert (filter (fun kv : string * list byte =>
                        Storage.glob_match toks kv.1 = true) fs = ∅) as ->.
      { apply map_empty. intros k. apply map_lookup_filter_None.
        destruct (fs !! k) as [v|] eqn:Hk; [right|by left].
        intros x Hx Hm. cbn [fst] in Hm.
        pose proof (DirFacts.no_match_lookup _ _ _ Hnone Hm).
        congruence. }
      rewrite !map_size_insert_None, map_size_empty; [done|..].
      * apply lookup_empty.
      * rewrite lookup_insert_ne by done. apply lookup_empty.
      * rewrite !lookup_insert_ne by done. apply lookup_empty.
Qed.

Lemma store_save_get_delete_witness :
  Storage.get_video_path "v1" "video"
    (fst (Storage.save_video "v1" [x01] "video" ∅)) = Some "v1_video.mp4"
  /\ Storage.delete_video_files "v1" ∅ = (∅, 0)
  /\ Storage.delete_video_files "v1" (save_all "v1" [x01] [x02] [x03] ∅)
     = (∅, 3).
Proof.
  destruct (store_save_get_delete "v1" ∅ eq_refl) as [H1 [H2 H3]].
  split; [|split].
  - apply (H1 [x01] "video"). reflexivity.
  - apply H2; reflexivity.
  - apply H3; reflexivity.
Defined.

(** C7 as stated fails: for the id [[a]] the three saved files are not
    found again, and for an id nothing was saved under, the file of another
    job is counted. *)
Lemma delete_count_refuted :
  snd (Storage.delete_video_files "[a]"
         (save_all "[a]" [x01] [x02] [x03] ∅)) = 0
  /\ snd (Storage.delete_video_files "v1" Samples.other_job) = 1
  /\ Samples.other_job !! Storage.filename "v1" "video" = None.
Proof. vm_compute. repeat split; reflexivity. Qed.

(** *** C5 *)

(** C5 (amended): for a job id that can be part of a file name (no path
    separator, no NUL, at most 100 bytes) and has no glob metacharacter,
    [delete_video_files] removes the files whose names continue
    [video_id_] and no others, and returns their number.  So every file
    saved for that id is removed; a file saved for another such id stays
    unless that id itself begins with [video_id_], in which case it is
    removed too. *)
Theorem delete_all_scope (video_id : string)
    (fs : gmap string (list byte)) :
  path_safe video_id = true ->
  glob_literal video_id = true ->
  (forall name,
      fst (Storage.delete_video_files video_id fs) !! name
        = if extends (video_id +:+ "_") name then None else fs !! name)
  /\ snd (Storage.delete_video_files video_id fs)
     = Z.of_nat
         (size (filter (fun kv : string * list byte =>
                          extends (video_id +:+ "_") kv.1 = true) fs))
  /\ (forall v : Router.Variant,
        fst (Storage.delete_video_files video_id fs)
          !! Storage.filename video_id (Router.variant_str v) = None)
  /\ (forall other (v : Router.Variant),
        path_safe other = true ->
        other <> video_id ->
        starts_with (video_id +:+ "_") other = false ->
        fst (Storage.delete_video_files video_id fs)
          !! Storage.filename other (Router.variant_str v)
        = fs !! Storage.filename other (Router.variant_str v))
  /\ (forall rest (v : Router.Variant),
        slash_free rest = true ->
        fst (Storage.delete_video_files video_id fs)
          !! Storage.filename (video_id +:+ "_" +:+ rest)
               (Router.variant_str v)
        = None).
Proof.
  intros _ Hlit.
  assert (forall name,
             fst (Storage.delete_video_files video_id fs) !! name
             = if extends (video_id +:+ "_") name then None
               else fs !! name) as Hlook.
  { intros name. rewrite GlobFacts.delete_video_files_spec. cbn [fst].
    rewrite <- (GlobFacts.glob_match_literal video_id name Hlit).
    destruct (Storage.glob_match _ name) eqn:Hm.
    - apply map_lookup_filter_None. right. intros x _ Hc. by apply Hc.
    - destruct (fs !! name) as [x|] eqn:Hx.
      + apply map_lookup_filter_Some. split; [done|]. cbn [fst]. congruence.
      + apply map_lookup_filter_None. by left. }
  split; [exact Hlook|]. split; [|split; [|split]].
  - rewrite GlobFacts.delete_video_files_spec. cbn [snd]. do 2 f_equal.
    apply map_filter_ext. intros k x _. cbn [fst].
    by rewrite GlobFacts.glob_match_literal.
  - intros v. rewrite Hlook.
    rewrite NameFacts.filename_split, NameFacts.extends_append.
    by rewrite (proj2 (NameFacts.variant_tail v)).
  - intros other v _ Hne Hpre. rewrite Hlook.
    destruct (extends (video_id +:+ "_")
                (Storage.filename other (Router.variant_str v))) eqn:He;
      [|done].
    unfold Storage.filename in He.
    apply NameFacts.extends_other in He as [?|Hp].
    + done.
    + congruence.
    + apply NameFacts.variant_tail.
  - intros rest v Hrest. rewrite Hlook.
    set (tail := Router.variant_str v
                 +:+ Storage.extension (Router.variant_str v)).
    replace (Storage.filename (video_id +:+ "_" +:+ rest)
               (Router.variant_str v))
      with ((video_id +:+ "_") +:+ (rest +:+ "_" +:+ tail)).
    2: { unfold Storage.filename, tail. by rewrite !append_assoc. }
    rewrite NameFacts.extends_append.
    rewrite slash_free_app, Hrest.
    change ("_" +:+ tail) with (String "_" tail). cbn [slash_free andb].
    unfold tail. by rewrite (proj2 (NameFacts.variant_tail v)).
Qed.

Lemma delete_all_scope_witness :
  fst (Storage.delete_video_files "v1" Samples.two_jobs)
    !! Storage.filename "v1" "video" = None
  /\ fst (Storage.delete_video_files "v1" Samples.two_jobs)
       !! Storage.filename "v2" "video"
     = Samples.two_jobs !! Storage.filename "v2" "video".
Proof.
  destruct (delete_all_scope "v1" Samples.two_jobs eq_refl eq_refl)
    as (_ & _ & H3 & H4 & _).
  split.
  - apply (H3 Router.Video).
  - apply (H4 "v2" Router.Video); [reflexivity | discriminate | reflexivity].
Defined.

(** C5 as stated fails: with the videos of jobs [v1] and [v1_x] in the
    directory, deleting for [v1] also removes the file saved for
    [v1_x]. *)
Lemma delete_takes_other_job :
  Samples.two_jobs !! Storage.filename "v1_x" "video" = Some [x07]
  /\ fst (Storage.delete_video_files "v1" Samples.two_jobs)
       !! Storage.filename "v1_x" "video" = None
  /\ snd (Storage.delete_video_files "v1" Samples.two_jobs) = 2.
Proof. vm_compute. repeat split; reflexivity. Qed.

(** ** Normalisation of the provider's answer *)

Module SoraFacts.
Import Sora.

Lemma and_then_inr {A B} (r : exn + A) (k : A -> exn + B) (b : B) :
  and_then r k = inr b -> exists a, r = inr a /\ k a = inr b.
Proof. destruct r as [e|a]; [done|]. intros H. by exists a. Qed.
End SoraFacts.

(** C6: whenever the provider's object is converted into a [VideoJob],
    every optional field the object lacks is [None] in the job, and
    [seconds] is the text of the provider's value, whether that was a
    number or a string, and "4" when the object has none. *)
Theorem convert_normalises (env : Env) (video : pyval) (job : VideoJob) :
  Sora._convert_to_video_job env video = inr job ->
  (attr video "progress" = None -> progress job = None)
  /\ (attr video "completed_at" = None -> completed_at job = None)
  /\ (attr video "expires_at" = None -> expires_at job = None)
  /\ (attr video "remixed_from_video_id" = None ->
      remixed_from_video_id job = None)
  /\ (attr video "error" = None -> error job = None)
  /\ seconds job
     = match attr video "seconds" with
       | Some (PInt n) => str_int n
       | Some (PStr s) => s
       | Some v => py_str v
       | None => "4"
       end.
Proof.
  unfold Sora._convert_to_video_job. intros H.
  repeat (apply SoraFacts.and_then_inr in H as (? & ? & H)).
  injection H as <-. cbn [progress completed_at expires_at
    remixed_from_video_id error seconds].
  unfold getattr, hasattr in *.
  repeat split.
  - intros E. rewrite E in *. cbn in *. congruence.
  - intros E. rewrite E in *. cbn in *. congruence.
  - intros E. rewrite E in *. cbn in *. congruence.
  - intros E. rewrite E in *. cbn in *. congruence.
  - intros E. unfold Sora.convert_error, hasattr in *. rewrite E in *.
    cbn in *. congruence.
  - destruct (attr video "seconds") as [[| | |]|]; reflexivity.
Qed.

Lemma convert_normalises_witness :
  progress Samples.queued_job = None
  /\ error Samples.queued_job = None
  /\ seconds Samples.queued_job = "8".
Proof.
  destruct (convert_normalises (Samples.steady "queued" 0 0)
              (Samples.job_obj "v1" "queued") Samples.queued_job eq_refl)
    as (H1 & _ & _ & _ & H5 & H6).
  split; [|split].
  - apply H1. reflexivity.
  - apply H5. reflexivity.
  - exact H6.
Defined.

(** ** The handlers *)

Module RouterFacts.

Lemma get_video_status_run (env : Env) (video_id : string) (w : World) :
  Sora.get_video_status env video_id w
    = (called env (EvRetrieve video_id) w,
       match retrieved env (ncalls w) video_id with
       | inl e => Raise e
       | inr job => Return job
       end).
Proof.
  unfold Sora.get_video_status, bind, Sora.upstream, retrieved, called.
  destruct (videos_retrieve env (ncalls w) video_id) as [e|video];
    [done|].
  cbn [Sora.and_then]. unfold lift.
  destruct (Sora.required video "status"); [done|].
  cbn [Sora.and_then].
  by destruct (Sora._convert_to_video_job env video).
Qed.

Lemma remix_video_run (env : Env) (video_id prompt : string) (w : World) :
  Sora.remix_video env video_id prompt w
    = (called env (EvRemix video_id prompt) w,
       match remixed env (ncalls w) video_id prompt with
       | inl e => Raise e
       | inr job => Return job
       end).
Proof.
  unfold Sora.remix_video, bind, Sora.upstream, remixed, called.
  destruct (videos_remix env (ncalls w) video_id prompt) as [e|video];
    [done|].
  cbn [Sora.and_then]. unfold lift.
  destruct (Sora.required video "id"); [done|].
  cbn [Sora.and_then].
  by destruct (Sora._convert_to_video_job env video).
Qed.

Lemma count_app (kind : event -> bool) (a b : list event) :
  count kind (a ++ b) = (count kind a + count kind b)%nat.
Proof. unfold count. by rewrite List.filter_app, length_app. Qed.

Lemma http_error_code (video_id what : string) (e : exn) :
  exists c d, Router.http_error video_id what e = HTTPException c d
              /\ (c = 404 \/ c = 500).
Proof.
  unfold Router.http_error.
  destruct (_ || _); eexists _, _; split; eauto.
Qed.
End RouterFacts.

(** *** C8 *)

(** C8: when the source job retrieved for a remix request is not
    completed, the reply is 400 and the only upstream call made is that
    retrieve, so no remix is issued; when it is completed the remix call is
    issued next, and the job it returns is sent back with status 201. *)
Theorem remix_needs_completed_source (env : Env) (video_id : string)
    (request : Router.RemixVideoRequest) (w : World) (source : VideoJob) :
  retrieved env (ncalls w) video_id = inr source ->
  if status_eqb (status source) completed then
    trace (fst (Router.remix_video env video_id request w))
      = trace w ++ [EvRetrieve video_id;
                    EvRemix video_id (Router.prompt request)]
    /\ forall job,
         remixed env (S (ncalls w)) video_id (Router.prompt request)
           = inr job ->
         Router.respond 201 (snd (Router.remix_video env video_id request w))
           = Router.Reply 201 job
  else
    Router.respond 201 (snd (Router.remix_video env video_id request w))
      = Router.Failure 400
          ("Source video must be completed. Current status: "
             +:+ status_str (status source))
    /\ trace (fst (Router.remix_video env video_id request w))
       = trace w ++ [EvRetrieve video_id]
    /\ count is_remix (trace (fst (Router.remix_video env video_id request w)))
       = count is_remix (trace w)
    /\ disk (fst (Router.remix_video env video_id request w)) = disk w.
Proof.
  intros Hsrc.
  unfold Router.remix_video, try_except, bind.
  rewrite RouterFacts.get_video_status_run, Hsrc.
  destruct (status_eqb (status source) completed) eqn:Hst; cbn [negb].
  - rewrite RouterFacts.remix_video_run. cbn [ncalls called].
    destruct (remixed env (S (ncalls w)) video_id (Router.prompt request))
      as [e|job] eqn:Hr.
    + split.
      * destruct e; cbn; by rewrite <- app_assoc.
      * intros job Hj. discriminate.
    + split.
      * cbn. by rewrite <- app_assoc.
      * intros job' Hj. injection Hj as <-. reflexivity.
  - unfold raise. cbn [fst snd trace disk called Router.respond].
    repeat split.
    rewrite RouterFacts.count_app. cbn. lia.
Qed.

Lemma remix_needs_completed_source_witness :
  Router.respond 201
    (snd (Router.remix_video (Samples.steady "failed" 0 0) "v1"
            (Router.mkRemixVideoRequest "more confetti") Samples.boot))
  = Router.Failure 400
      "Source video must be completed. Current status: failed"
  /\ count is_remix
       (trace (fst (Router.remix_video (Samples.steady "failed" 0 0) "v1"
                      (Router.mkRemixVideoRequest "more confetti")
                      Samples.boot))) = 0%nat.
Proof.
  pose proof (remix_needs_completed_source (Samples.steady "failed" 0 0)
                "v1" (Router.mkRemixVideoRequest "more confetti")
                Samples.boot
                (mkVideoJob "v1" "video" failed "sora-2" None 1758941485
                   None None "1280x720" "8" None None) eq_refl) as H.
  cbn [status status_eqb] in H. destruct H as (H1 & _ & H3 & _).
  split; [exact H1 | exact H3].
Defined.

(** *** C10 *)

(** C10: when the provider's delete raises, the handler answers 404 or 500
    and the storage directory is as it was, no file having been unlinked;
    when it returns, the files matching the id are unlinked afterwards. *)
Theorem delete_purges_after_upstream (env : Env) (video_id : string)
    (w : World) :
  match videos_delete env (ncalls w) video_id with
  | inl e =>
      disk (fst (Router.delete_video env video_id w)) = disk w
      /\ trace (fst (Router.delete_video env video_id w))
         = trace w ++ [EvDelete video_id]
      /\ count is_unlink (trace (fst (Router.delete_video env video_id w)))
         = count is_unlink (trace w)
      /\ snd (Router.delete_video env video_id w)
         = Raise (Router.http_error video_id "Failed to delete video: " e)
      /\ exists c d,
           Router.respond 200 (snd (Router.delete_video env video_id w))
             = Router.Failure c d
           /\ (c = 404 \/ c = 500)
  | inr _ =>
      disk (fst (Router.delete_video env video_id w))
        = fst (Storage.delete_video_files video_id (disk w))
      /\ trace (fst (Router.delete_video env video_id w))
         = trace w ++ EvDelete video_id
             :: map EvUnlink (Storage.glob (video_id +:+ "_*") (disk w))
      /\ snd (Router.delete_video env video_id w)
         = Return (video_id, "video", true)
  end.
Proof.
  unfold Router.delete_video, try_except, bind, Sora.delete_video, bind,
    Sora.upstream, Router.storage_delete_video_files, ret, raise.
  destruct (videos_delete env (ncalls w) video_id) as [e|[]].
  - cbn [fst snd disk trace]. repeat split.
    + rewrite RouterFacts.count_app. cbn. lia.
    + destruct (RouterFacts.http_error_code video_id
                  "Failed to delete video: " e) as (c & d & -> & Hc).
      by exists c, d.
  - cbn [disk trace].
    destruct (Storage.delete_video_files video_id (disk w)) as [fs n].
    cbn [fst snd disk trace]. repeat split.
    by rewrite <- app_assoc.
Qed.

(** *** C4 *)

Module DownloadFacts.

Lemma status_eqb_eq (a b : Status) : status_eqb a b = true <-> a = b.
Proof. destruct a, b; cbn; split; congruence. Qed.

Lemma not_ready (env : Env) (video_id : string) (variant : Router.Variant)
    (w : World) (job : VideoJob) :
  retrieved env (ncalls w) video_id = inr job ->
  status job <> completed ->
  Router.download_video_content env video_id variant w
    = (called env (EvRetrieve video_id) w,
       Raise (HTTPException 409
                ("Video is not ready for download. Current status: "
                   +:+ status_str (status job)))).
Proof.
  intros Hjob Hst.
  unfold Router.download_video_content, try_except, bind.
  rewrite RouterFacts.get_video_status_run, Hjob.
  destruct (status_eqb (status job) completed) eqn:E.
  - apply status_eqb_eq in E. done.
  - reflexivity.
Qed.

Lemma hit (env : Env) (video_id : string) (variant : Router.Variant)
    (w : World) (job : VideoJob) (data : list byte) :
  retrieved env (ncalls w) video_id = inr job ->
  status job = completed ->
  disk w !! cache_path video_id variant = Some data ->
  Router.download_video_content env video_id variant w
    = ({| clock := clock w + latency env (ncalls w);
          nreads := nreads w;
          ncalls := S (ncalls w);
          nsleeps := nsleeps w;
          trace := (trace w ++ [EvRetrieve video_id])
                   ++ [EvRead (cache_path video_id variant)];
          disk := disk w |},
       Return (served video_id variant data)).
Proof.
  intros Hjob Hst Hfile.
  unfold Router.download_video_content, try_except, bind.
  rewrite RouterFacts.get_video_status_run, Hjob, Hst.
  cbn [status_eqb negb].
  unfold Router.storage_get_video_path, Storage.get_video_path.
  unfold cache_path in Hfile. cbn [disk called].
  rewrite Hfile. unfold Router.read_file. cbn [disk called].
  rewrite Hfile. reflexivity.
Qed.

Lemma miss (env : Env) (video_id : string) (variant : Router.Variant)
    (w : World) (job : VideoJob) (data : list byte) :
  retrieved env (ncalls w) video_id = inr job ->
  status job = completed ->
  disk w !! cache_path video_id variant = None ->
  videos_download_content env (S (ncalls w)) video_id
    (Router.variant_str variant) = inr data ->
  Router.download_video_content env video_id variant w
    = ({| clock := clock w + latency env (ncalls w)
                   + latency env (S (ncalls w));
          nreads := nreads w;
          ncalls := S (S (ncalls w));
          nsleeps := nsleeps w;
          trace := ((trace w ++ [EvRetrieve video_id])
                    ++ [EvDownload video_id (Router.variant_str variant)])
                   ++ [EvSave (cache_path video_id variant)];
          disk := <[cache_path video_id variant := data]> (disk w) |},
       Return (served video_id variant data)).
Proof.
  intros Hjob Hst Hfile Hdl.
  unfold Router.download_video_content, try_except, bind.
  rewrite RouterFacts.get_video_status_run, Hjob, Hst.
  cbn [status_eqb negb].
  unfold Router.storage_get_video_path, Storage.get_video_path.
  unfold cache_path in *. cbn [disk called].
  rewrite Hfile. unfold Sora.download_video_content, Sora.upstream.
  cbn [ncalls called]. rewrite Hdl. reflexivity.
Qed.
End DownloadFacts.

(** C4: a content request for a job that is not completed is answered 409
    with the current status, and neither a download nor a save happens; on
    a cache miss one download and one save take place and the bytes just
    fetched are served; on a hit no download takes place and the bytes of
    the cached file are served; and a request that follows a miss for the
    same job and variant is such a hit and serves the same bytes. *)
Theorem download_cache_policy (env : Env) (video_id : string)
    (variant : Router.Variant) (w : World) (job : VideoJob) :
  retrieved env (ncalls w) video_id = inr job ->
  (status job <> completed ->
     Router.respond 200
       (snd (Router.download_video_content env video_id variant w))
       = Router.Failure 409
           ("Video is not ready for download. Current status: "
              +:+ status_str (status job))
     /\ count is_download
          (trace (fst (Router.download_video_content env video_id variant w)))
        = count is_download (trace w)
     /\ count is_save
          (trace (fst (Router.download_video_content env video_id variant w)))
        = count is_save (trace w)
     /\ disk (fst (Router.download_video_content env video_id variant w))
        = disk w)
  /\ (status job = completed ->
      disk w !! cache_path video_id variant = None ->
      forall data,
        videos_download_content env (S (ncalls w)) video_id
          (Router.variant_str variant) = inr data ->
        Router.respond 200
          (snd (Router.download_video_content env video_id variant w))
          = Router.Reply 200 (served video_id variant data)
        /\ trace (fst (Router.download_video_content env video_id variant w))
           = trace w
             ++ [EvRetrieve video_id;
                 EvDownload video_id (Router.variant_str variant);
                 EvSave (cache_path video_id variant)]
        /\ count is_download
             (trace
                (fst (Router.download_video_content env video_id variant w)))
           = S (count is_download (trace w))
        /\ count is_save
             (trace
                (fst (Router.download_video_content env video_id variant w)))
           = S (count is_save (trace w))
        /\ disk (fst (Router.download_video_content env video_id variant w))
           = <[cache_path video_id variant := data]> (disk w)
        /\ forall again,
             retrieved env (S (S (ncalls w))) video_id = inr again ->
             status again = completed ->
             Router.respond 200
               (snd (Router.download_video_content env video_id variant
                       (fst (Router.download_video_content env video_id
                               variant w))))
               = Router.Reply 200 (served video_id variant data)
             /\ count is_download
                  (trace
                     (fst (Router.download_video_content env video_id variant
                             (fst (Router.download_video_content env video_id
                                     variant w)))))
                = S (count is_download (trace w)))
  /\ (status job = completed ->
      forall data,
        disk w !! cache_path video_id variant = Some data ->
        Router.respond 200
          (snd (Router.download_video_content env video_id variant w))
          = Router.Reply 200 (served video_id variant data)
        /\ count is_download
             (trace
                (fst (Router.download_video_content env video_id variant w)))
           = count is_download (trace w)
        /\ trace (fst (Router.download_video_content env video_id variant w))
           = trace w
             ++ [EvRetrieve video_id; EvRead (cache_path video_id variant)]
        /\ disk (fst (Router.download_video_content env video_id variant w))
           = disk w).
Proof.
  intros Hjob. split; [|split].
  - intros Hst. rewrite (DownloadFacts.not_ready _ _ _ _ _ Hjob Hst).
    cbn [fst snd Router.respond called trace disk].
    rewrite !RouterFacts.count_app. cbn. repeat split; lia.
  - intros Hst Hnone data Hdl.
    rewrite (DownloadFacts.miss _ _ _ _ _ _ Hjob Hst Hnone Hdl).
    cbn [fst snd Router.respond trace disk].
    rewrite !RouterFacts.count_app, <- !app_assoc.
    split; [reflexivity|]. split; [reflexivity|].
    split; [cbn; lia|]. split; [cbn; lia|]. split; [reflexivity|].
    intros again Hagain Hcompleted.
    erewrite DownloadFacts.hit;
      [|exact Hagain|done|cbn [disk]; apply lookup_insert_eq].
    cbn [fst snd Router.respond trace]. split; [reflexivity|].
    rewrite !RouterFacts.count_app. cbn. lia.
  - intros Hst data Hsome.
    rewrite (DownloadFacts.hit _ _ _ _ _ _ Hjob Hst Hsome).
    cbn [fst snd Router.respond trace disk].
    rewrite !RouterFacts.count_app, <- !app_assoc. cbn.
    repeat split; lia.
Qed.

Lemma download_cache_policy_witness :
  Router.respond 200
    (snd (Router.download_video_content (Samples.steady "in_progress" 0 0)
            "v1" Router.Video Samples.boot))
  = Router.Failure 409
      "Video is not ready for download. Current status: in_progress"
  /\ Router.respond 200
       (snd (Router.download_video_content (Samples.steady "completed" 0 0)
               "v1" Router.Video Samples.boot))
     = Router.Reply 200 (served "v1" Router.Video [x01; x02; x03])
  /\ Router.respond 200
       (snd (Router.download_video_content (Samples.steady "completed" 0 0)
               "v1" Router.Video Samples.cached))
     = Router.Reply 200 (served "v1" Router.Video [x01; x02; x03]).
Proof.
  destruct (download_cache_policy (Samples.steady "in_progress" 0 0) "v1"
              Router.Video Samples.boot (Samples.job_in in_progress) eq_refl)
    as (Hnot & _ & _).
  destruct (download_cache_policy (Samples.steady "completed" 0 0) "v1"
              Router.Video Samples.boot (Samples.job_in completed) eq_refl)
    as (_ & Hmiss & _).
  destruct (download_cache_policy (Samples.steady "completed" 0 0) "v1"
              Router.Video Samples.cached (Samples.job_in completed) eq_refl)
    as (_ & _ & Hhit).
  split; [|split].
  - apply Hnot. discriminate.
  - apply (Hmiss eq_refl eq_refl [x01; x02; x03] eq_refl).
  - apply (Hhit eq_refl [x01; x02; x03] eq_refl).
Defined.

(** ** The polling loop *)

Module PollFacts.

(** One turn of the loop. *)
Lemma poll_loop_step (env : Env) (fuel : nat) (video_id : string)
    (timeout start interval : Z) (w : World) :
  Sora.poll_loop env (S fuel) video_id timeout start interval w
  = if clock w + tick env (nreads w) - start >? 1000 * timeout then
      (ticked env w, Raise (timeout_error timeout))
    else
      match retrieved env (ncalls w) video_id with
      | inl e => (called env (EvRetrieve video_id) (ticked env w), Raise e)
      | inr job =>
          if Sora.terminal (status job) then
            (called env (EvRetrieve video_id) (ticked env w), Return job)
          else
            Sora.poll_loop env fuel video_id timeout start
              (Z.min (interval * 2) Sora.max_interval)
              (slept env interval
                 (called env (EvRetrieve video_id) (ticked env w)))
      end.
Proof.
  cbn [Sora.poll_loop]. unfold bind at 1. unfold Sora.loop_time.
  fold (ticked env w).
  destruct (clock w + tick env (nreads w) - start >? 1000 * timeout);
    [reflexivity|].
  unfold bind at 1. rewrite RouterFacts.get_video_status_run.
  cbn [ncalls ticked].
  destruct (retrieved env (ncalls w) video_id) as [e|job]; [reflexivity|].
  destruct (Sora.terminal (status job)); [reflexivity|].
  unfold bind at 1. reflexivity.
Qed.

Lemma poll_until_complete_run (env : Env) (fuel : nat) (video_id : string)
    (timeout poll_interval : Z) (w : World) :
  Sora.poll_until_complete env fuel video_id timeout poll_interval w
  = Sora.poll_loop env fuel video_id timeout
      (clock w + tick env (nreads w)) poll_interval (ticked env w).
Proof. reflexivity. Qed.

Lemma backoff_ge_1 (p : Z) (k : nat) : 1 <= p -> 1 <= backoff p k.
Proof.
  intros Hp. induction k as [|k IH]; cbn [backoff]; [done|].
  unfold Sora.max_interval. lia.
Qed.

Lemma backoff_2 (k : nat) :
  backoff 2 k = nth k [2; 4; 8] 10
  /\ backoff 2 k <= 10
  /\ backoff 2 (S k) = Z.min (2 * backoff 2 k) 10.
Proof.
  assert (forall j, backoff 2 (3 + j) = 10) as H10.
  { induction j as [|j IH]; [reflexivity|].
    change (3 + S j)%nat with (S (2 + S j)).
    replace (2 + S j)%nat with (3 + j)%nat by lia.
    cbn [backoff]. rewrite IH. reflexivity. }
  split; [|split].
  - destruct k as [|[|[|k]]]; try reflexivity.
    transitivity 10; [apply (H10 k)|by destruct k].
  - destruct k as [|[|[|k]]]; try (cbn; lia).
    pose proof (H10 k) as Hk. cbn [Nat.add] in Hk. lia.
  - cbn [backoff]. unfold Sora.max_interval. lia.
Qed.

Lemma sleeps_of_app (a b : list event) :
  sleeps_of (a ++ b) = sleeps_of a ++ sleeps_of b.
Proof. unfold sleeps_of. apply omap_app. Qed.

Lemma sleeps_of_rounds (video_id : string) (p : Z) (k n : nat) :
  sleeps_of (rounds video_id p k n) = map (backoff p) (seq k n).
Proof.
  revert k. induction n as [|n IH]; intros k; [reflexivity|].
  cbn [rounds seq map]. unfold sleeps_of in *. cbn [omap is_sleep].
  simpl. f_equal. apply IH.
Qed.

Section Unfinished.
Variable env : Env.
Variable video_id : string.
Variable timeout start p : Z.
Hypothesis Hunf : stays_unfinished env video_id.

(** While the job is unfinished the loop does nothing but rounds of
    retrieve and sleep: as many as there is fuel for, or fewer when a
    deadline check before that finds the timeout exceeded. *)
Lemma poll_loop_rounds (fuel k : nat) (w : World) :
  exists n,
    trace (fst (Sora.poll_loop env fuel video_id timeout start
                  (backoff p k) w))
      = trace w ++ rounds video_id p k n
    /\ ((snd (Sora.poll_loop env fuel video_id timeout start
                (backoff p k) w) = OutOfFuel
         /\ n = fuel)
        \/ (snd (Sora.poll_loop env fuel video_id timeout start
                   (backoff p k) w) = Raise (timeout_error timeout)
            /\ (n < fuel)%nat
            /\ 1000 * timeout
                 < clock (fst (Sora.poll_loop env fuel video_id timeout
                                 start (backoff p k) w)) - start)).
Proof.
  revert k w. induction fuel as [|fuel IH]; intros k w.
  - exists 0%nat. cbn. rewrite app_nil_r. auto.
  - rewrite poll_loop_step.
    destruct (Z.gtb_spec (clock w + tick env (nreads w) - start)
                (1000 * timeout)) as [Hfire|Hgo].
    + exists 0%nat. cbn [fst snd trace clock ticked rounds].
      rewrite app_nil_r. split; [done|]. right.
      split; [done|]. split; lia.
    + destruct (Hunf (ncalls w)) as (job & Hjob & Hterm).
      rewrite Hjob, Hterm.
      destruct (IH (S k)
                  (slept env (backoff p k)
                     (called env (EvRetrieve video_id) (ticked env w))))
        as (n & Htr & Hout).
      exists (S n). cbn [backoff] in Htr, Hout. split.
      * rewrite Htr. cbn [trace slept called ticked rounds].
        by rewrite <- !app_assoc.
      * destruct Hout as [[Hout ->]|(Hout & Hn & Hlate)].
        -- by left.
        -- right. split; [exact Hout|]. split; [lia|exact Hlate].
Qed.

Hypothesis Hcausal : causal env.
Hypothesis Hp : 1 <= p.

(** With fuel for every second of the timeout the loop reaches the
    deadline, later than [timeout] and by no more than what the last
    round took. *)
Lemma poll_loop_deadline (fuel k : nat) (w : World) (slack : Z) :
  (1 <= fuel)%nat ->
  1000 * timeout - (clock w - start) < 1000 * (Z.of_nat fuel - 1) ->
  clock w - start <= 1000 * timeout + slack ->
  exists n,
    snd (Sora.poll_loop env fuel video_id timeout start (backoff p k) w)
      = Raise (timeout_error timeout)
    /\ trace (fst (Sora.poll_loop env fuel video_id timeout start
                     (backoff p k) w))
       = trace w ++ rounds video_id p k n
    /\ 1000 * timeout
         < clock (fst (Sora.poll_loop env fuel video_id timeout start
                         (backoff p k) w)) - start
    /\ clock (fst (Sora.poll_loop env fuel video_id timeout start
                     (backoff p k) w)) - start
       <= 1000 * timeout
          + match n with
            | O => slack
            | S m =>
                1000 * Z.max (backoff p (k + m)) 0
                + latency env (ncalls w + m)
                + oversleep env (nsleeps w + m)
            end
          + tick env (nreads w + n).
Proof.
  revert k w slack. induction fuel as [|fuel IH];
    intros k w slack Hfuel Hrem Hslack; [lia|].
  rewrite poll_loop_step.
  destruct (Hcausal (ncalls w)) as (Hlat & _ & _).
  destruct (Hcausal (nreads w)) as (_ & Htick & _).
  destruct (Hcausal (nsleeps w)) as (_ & _ & Hover).
  destruct (Z.gtb_spec (clock w + tick env (nreads w) - start)
              (1000 * timeout)) as [Hfire|Hgo].
  - exists 0%nat. cbn [fst snd trace clock ticked rounds].
    rewrite app_nil_r, Nat.add_0_r. repeat split; lia.
  - destruct (Hunf (ncalls w)) as (job & Hjob & Hterm).
    rewrite Hjob, Hterm.
    pose proof (backoff_ge_1 p k Hp) as Hb.
    destruct (IH (S k)
                (slept env (backoff p k)
                   (called env (EvRetrieve video_id) (ticked env w)))
                (1000 * Z.max (backoff p k) 0 + latency env (ncalls w)
                 + oversleep env (nsleeps w)))
      as (n & Hout & Htr & Hlate & Hbound).
    + lia.
    + cbn [clock slept called ticked ncalls nsleeps]. lia.
    + cbn [clock slept called ticked ncalls nsleeps]. lia.
    + exists (S n). cbn [backoff] in Hout, Htr, Hlate, Hbound.
      split; [exact Hout|]. split; [|split; [exact Hlate|]].
      * rewrite Htr. cbn [trace slept called ticked rounds].
        by rewrite <- !app_assoc.
      * cbn [clock slept called ticked ncalls nsleeps nreads]
          in Hbound |- *.
        replace (nreads w + S n)%nat with (S (nreads w) + n)%nat by lia.
        destruct n as [|m].
        -- rewrite ?Nat.add_0_r in *. lia.
        -- replace (k + S m)%nat with (S k + m)%nat by lia.
           replace (ncalls w + S m)%nat with (S (ncalls w) + m)%nat
             by lia.
           replace (nsleeps w + S m)%nat with (S (nsleeps w) + m)%nat
             by lia.
           exact Hbound.
Qed.
End Unfinished.
End PollFacts.

(** *** C1 *)

(** C1: as long as the job is unfinished, a run of [poll_until_complete]
    with the initial interval 2 consists of retrieves with a sleep after
    each, and the sleeps are 2, 4, 8, 10, 10, ... seconds: each is twice the
    one before, capped at 10, and none exceeds 10.  The run goes on in this
    way until it is cut off: it makes as many rounds as it is given fuel
    for, unless it raises [TimeoutError] before, and it raises that only
    once more than the timeout has elapsed. *)
Theorem backoff_schedule (env : Env) (video_id : string) (timeout : Z)
    (fuel : nat) (w : World) :
  stays_unfinished env video_id ->
  (exists n,
      trace (fst (Sora.poll_until_complete env fuel video_id timeout 2 w))
        = trace w ++ rounds video_id 2 0 n
      /\ sleeps_of
           (trace (fst (Sora.poll_until_complete env fuel video_id
                          timeout 2 w)))
         = sleeps_of (trace w) ++ map (backoff 2) (seq 0 n)
      /\ ((snd (Sora.poll_until_complete env fuel video_id timeout 2 w)
             = OutOfFuel
           /\ n = fuel)
          \/ (snd (Sora.poll_until_complete env fuel video_id timeout 2 w)
                = Raise (timeout_error timeout)
              /\ (n < fuel)%nat
              /\ 1000 * timeout
                   < clock (fst (Sora.poll_until_complete env fuel video_id
                                   timeout 2 w))
                     - (clock w + tick env (nreads w)))))
  /\ forall k,
       backoff 2 k = nth k [2; 4; 8] 10
       /\ backoff 2 k <= 10
       /\ backoff 2 (S k) = Z.min (2 * backoff 2 k) 10.
Proof.
  intros Hunf. split; [|apply PollFacts.backoff_2].
  rewrite PollFacts.poll_until_complete_run.
  destruct (PollFacts.poll_loop_rounds env video_id timeout
              (clock w + tick env (nreads w)) 2 Hunf fuel 0 (ticked env w))
    as (n & Htr & Hout).
  exists n. cbn [backoff] in Htr, Hout. split; [exact Htr|].
  split; [|exact Hout].
  rewrite Htr. cbn [trace ticked].
  by rewrite PollFacts.sleeps_of_app, PollFacts.sleeps_of_rounds.
Qed.

Lemma steady_unfinished (lat tk : Z) :
  stays_unfinished (Samples.steady "in_progress" lat tk) "v1".
Proof.
  intros n. exists (Samples.job_in in_progress). split; reflexivity.
Defined.

Lemma backoff_schedule_witness :
  exists n,
    trace (fst (Sora.poll_until_complete (Samples.steady "in_progress" 0 0)
                  40 "v1" 30 2 Samples.boot))
      = trace Samples.boot ++ rounds "v1" 2 0 n
    /\ sleeps_of
         (trace (fst (Sora.poll_until_complete
                        (Samples.steady "in_progress" 0 0) 40 "v1" 30 2
                        Samples.boot)))
       = sleeps_of (trace Samples.boot) ++ map (backoff 2) (seq 0 n)
    /\ ((snd (Sora.poll_until_complete (Samples.steady "in_progress" 0 0)
                40 "v1" 30 2 Samples.boot) = OutOfFuel
         /\ n = 40%nat)
        \/ (snd (Sora.poll_until_complete (Samples.steady "in_progress" 0 0)
                   40 "v1" 30 2 Samples.boot) = Raise (timeout_error 30)
            /\ (n < 40)%nat
            /\ 1000 * 30
                 < clock (fst (Sora.poll_until_complete
                                 (Samples.steady "in_progress" 0 0) 40 "v1"
                                 30 2 Samples.boot))
                   - (clock Samples.boot
                      + tick (Samples.steady "in_progress" 0 0)
                          (nreads Samples.boot)))).
Proof.
  exact (proj1 (backoff_schedule (Samples.steady "in_progress" 0 0) "v1" 30
                  40 Samples.boot (steady_unfinished 0 0))).
Defined.

(** The run of the witness: five sleeps before the deadline of 30 s. *)
Example thirty_second_run :
  sleeps_of
    (trace (fst (Sora.poll_until_complete (Samples.steady "in_progress" 0 0)
                   40 "v1" 30 2 Samples.boot)))
  = [2; 4; 8; 10; 10].
Proof. vm_compute. reflexivity. Qed.

(** *** C2 *)

Lemma poll_video_timeout (env : Env) (fuel : nat) (video_id : string)
    (timeout : Z) (w : World) :
  1 <= timeout <= 600 ->
  snd (Sora.poll_until_complete env fuel video_id timeout 2 w)
    = Raise (timeout_error timeout) ->
  Router.poll_video env fuel video_id timeout w
    = (fst (Sora.poll_until_complete env fuel video_id timeout 2 w),
       Raise (HTTPException 504
                ("Polling timeout after " +:+ str_int timeout
                   +:+ " seconds"))).
Proof.
  intros Hrange Hout. unfold Router.poll_video.
  destruct (Z.ltb_spec timeout 1) as [?|_]; [lia|].
  destruct (Z.ltb_spec 600 timeout) as [?|_]; [lia|].
  cbn [orb]. unfold try_except.
  destruct (Sora.poll_until_complete env fuel video_id timeout 2 w)
    as [w' o]. cbn [fst snd] in *. subst o. reflexivity.
Qed.

(** C2 (amended): for a job that never reaches a terminal state,
    [poll_until_complete] with timeout [t >= 0] and fuel for every second of
    it raises [TimeoutError] and nothing else, after retrieves and sleeps
    only; the time elapsed when it is raised is more than [t] seconds and
    at most [t] seconds plus what the last round took, that is its sleep,
    the retrieve before it and the delays of the clock; when calls and
    clock readings take no time this is at most [t] plus the last backoff
    interval, itself at most 10 s, plus the time by which that last sleep
    overshot.  The poll route answers 504. *)
Theorem poll_times_out (env : Env) (video_id : string) (timeout : Z)
    (fuel : nat) (w : World) :
  stays_unfinished env video_id ->
  causal env ->
  0 <= timeout ->
  (Z.to_nat timeout + 2 <= fuel)%nat ->
  exists n,
    snd (Sora.poll_until_complete env fuel video_id timeout 2 w)
      = Raise (timeout_error timeout)
    /\ trace (fst (Sora.poll_until_complete env fuel video_id timeout 2 w))
       = trace w ++ rounds video_id 2 0 n
    /\ 1000 * timeout
         < clock (fst (Sora.poll_until_complete env fuel video_id timeout 2 w))
           - (clock w + tick env (nreads w))
    /\ clock (fst (Sora.poll_until_complete env fuel video_id timeout 2 w))
         - (clock w + tick env (nreads w))
       <= 1000 * timeout + overrun env w 2 n
    /\ (immediate env ->
        exists m,
          n = S m
          /\ clock (fst (Sora.poll_until_complete env fuel video_id
                           timeout 2 w))
               - (clock w + tick env (nreads w))
             <= 1000 * (timeout + backoff 2 m)
                + oversleep env (nsleeps w + m)
          /\ backoff 2 m <= 10)
    /\ (1 <= timeout <= 600 ->
        Router.respond 200 (snd (Router.poll_video env fuel video_id timeout w))
          = Router.Failure 504
              ("Polling timeout after " +:+ str_int timeout +:+ " seconds")
        /\ trace (fst (Router.poll_video env fuel video_id timeout w))
           = trace w ++ rounds video_id 2 0 n).
Proof.
  intros Hunf Hcausal Ht Hfuel.
  destruct (PollFacts.poll_loop_deadline env video_id timeout
              (clock w + tick env (nreads w)) 2 Hunf Hcausal ltac:(lia)
              fuel 0 (ticked env w) 0)
    as (n & Hout & Htr & Hlate & Hbound).
  { lia. }
  { cbn [clock ticked]. lia. }
  { cbn [clock ticked]. lia. }
  rewrite <- PollFacts.poll_until_complete_run in Hout, Htr, Hlate, Hbound.
  cbn [backoff trace ticked ncalls nsleeps nreads Nat.add] in *.
  exists n. split; [exact Hout|]. split; [exact Htr|].
  split; [exact Hlate|].
  assert (clock (fst (Sora.poll_until_complete env fuel video_id timeout 2 w))
            - (clock w + tick env (nreads w))
          <= 1000 * timeout + overrun env w 2 n) as Hover.
  { unfold overrun. destruct n as [|m]; lia. }
  split; [exact Hover|]. split.
  - intros Hinst. destruct n as [|m].
    + unfold overrun in Hover. destruct (Hinst (S (nreads w + 0))) as (_ & E).
      rewrite E in Hover. lia.
    + exists m. split; [reflexivity|].
      pose proof (PollFacts.backoff_2 m) as (_ & Hle & _).
      split; [|exact Hle].
      unfold overrun in Hover.
      destruct (Hinst (ncalls w + m)%nat) as (E1 & _).
      destruct (Hinst (S (nreads w + S m))) as (_ & E2).
      rewrite E1, E2 in Hover.
      pose proof (PollFacts.backoff_ge_1 2 m ltac:(lia)). lia.
  - intros Hrange.
    rewrite (poll_video_timeout env fuel video_id timeout w Hrange Hout).
    cbn [fst snd Router.respond]. split; [reflexivity|exact Htr].
Qed.

Lemma steady_causal (st : string) (lat tk : Z) :
  0 <= lat -> 0 <= tk -> causal (Samples.steady st lat tk).
Proof. intros Hl Hk n. cbn. lia. Defined.

Lemma poll_times_out_witness :
  exists n,
    snd (Sora.poll_until_complete (Samples.steady "in_progress" 0 0) 7 "v1"
           5 2 Samples.boot)
      = Raise (timeout_error 5)
    /\ trace (fst (Sora.poll_until_complete (Samples.steady "in_progress" 0 0)
                     7 "v1" 5 2 Samples.boot))
       = trace Samples.boot ++ rounds "v1" 2 0 n.
Proof.
  destruct (poll_times_out (Samples.steady "in_progress" 0 0) "v1" 5 7
              Samples.boot (steady_unfinished 0 0)
              (steady_causal "in_progress" 0 0 ltac:(lia) ltac:(lia))
              ltac:(lia) ltac:(cbn; lia))
    as (n & H1 & H2 & _).
  exists n. split; [exact H1|exact H2].
Defined.

(** C2 as stated fails: when every retrieve takes 20 s, polling with a
    timeout of 5 s raises [TimeoutError] 22 s after it began, and the one
    sleep of that run was 2 s long. *)
Lemma slow_retrieve_overruns :
  snd (Sora.poll_until_complete (Samples.steady "in_progress" 20000 0) 7
         "v1" 5 2 Samples.boot)
    = Raise (timeout_error 5)
  /\ clock (fst (Sora.poll_until_complete
                   (Samples.steady "in_progress" 20000 0) 7 "v1" 5 2
                   Samples.boot))
       - (clock Samples.boot
          + tick (Samples.steady "in_progress" 20000 0)
              (nreads Samples.boot))
     = 22000
  /\ sleeps_of
       (trace (fst (Sora.poll_until_complete
                      (Samples.steady "in_progress" 20000 0) 7 "v1" 5 2
                      Samples.boot)))
     = [2]
  /\ 1000 * (5 + 10) < 22000.
Proof. vm_compute. repeat split; reflexivity. Qed.

(** *** C3 *)

Lemma poll_loop_extends (env : Env) (video_id : string)
    (timeout start : Z) (fuel : nat) (interval : Z) (w : World) :
  exists tr,
    trace (fst (Sora.poll_loop env fuel video_id timeout start interval w))
      = trace w ++ tr.
Proof.
  revert interval w. induction fuel as [|fuel IH]; intros interval w.
  - exists []. cbn. by rewrite app_nil_r.
  - rewrite PollFacts.poll_loop_step.
    destruct (clock w + tick env (nreads w) - start >? 1000 * timeout).
    + exists []. cbn. by rewrite app_nil_r.
    + destruct (retrieved env (ncalls w) video_id) as [e|job].
      * by exists [EvRetrieve video_id].
      * destruct (Sora.terminal (status job)).
        -- by exists [EvRetrieve video_id].
        -- destruct (IH (Z.min (interval * 2) Sora.max_interval)
                       (slept env interval
                          (called env (EvRetrieve video_id) (ticked env w))))
             as (tr & Htr).
           exists (EvRetrieve video_id :: EvSleep interval :: tr).
           rewrite Htr. cbn [trace slept called ticked].
           by rewrite <- !app_assoc.
Qed.

(** C3 (amended): the deadline is checked before every retrieve, the
    first one included.  When the time elapsed at the first check does not
    exceed the timeout, which is so with timeout 0 only if the clock has not
    moved since the call began, the job is retrieved at least once; and if
    it is then already completed or failed, it is returned after that one
    retrieve, without any sleep. *)
Theorem first_check_then_retrieve (env : Env) (video_id : string)
    (timeout poll_interval : Z) (fuel : nat) (w : World) :
  tick env (S (nreads w)) <= 1000 * timeout ->
  (exists tr,
      trace (fst (Sora.poll_until_complete env (S fuel) video_id timeout
                    poll_interval w))
        = trace w ++ EvRetrieve video_id :: tr)
  /\ forall job,
       retrieved env (ncalls w) video_id = inr job ->
       Sora.terminal (status job) = true ->
       snd (Sora.poll_until_complete env (S fuel) video_id timeout
              poll_interval w) = Return job
       /\ trace (fst (Sora.poll_until_complete env (S fuel) video_id timeout
                        poll_interval w))
          = trace w ++ [EvRetrieve video_id]
       /\ nsleeps (fst (Sora.poll_until_complete env (S fuel) video_id
                          timeout poll_interval w))
          = nsleeps w.
Proof.
  intros Hfirst. rewrite PollFacts.poll_until_complete_run.
  rewrite PollFacts.poll_loop_step. cbn [clock nreads ncalls ticked].
  destruct (Z.gtb_spec
              (clock w + tick env (nreads w) + tick env (S (nreads w))
               - (clock w + tick env (nreads w)))
              (1000 * timeout)) as [Hfire|_]; [lia|].
  split.
  - destruct (retrieved env (ncalls w) video_id) as [e|job].
    + by exists [].
    + destruct (Sora.terminal (status job)).
      * by exists [].
      * destruct (poll_loop_extends env video_id timeout
                    (clock w + tick env (nreads w)) fuel
                    (Z.min (poll_interval * 2) Sora.max_interval)
                    (slept env poll_interval
                       (called env (EvRetrieve video_id)
                          (ticked env (ticked env w))))) as (tr & Htr).
        exists (EvSleep poll_interval :: tr). rewrite Htr.
        cbn [trace slept called ticked]. by rewrite <- !app_assoc.
  - intros job Hjob Hterm. rewrite Hjob, Hterm. by cbn.
Qed.

Lemma first_check_then_retrieve_witness :
  snd (Sora.poll_until_complete (Samples.steady "completed" 0 0) 1 "v1" 0 2
         Samples.boot)
    = Return (Samples.job_in completed)
  /\ trace (fst (Sora.poll_until_complete (Samples.steady "completed" 0 0) 1
                   "v1" 0 2 Samples.boot))
     = trace Samples.boot ++ [EvRetrieve "v1"]
  /\ nsleeps (fst (Sora.poll_until_complete (Samples.steady "completed" 0 0)
                     1 "v1" 0 2 Samples.boot))
     = nsleeps Samples.boot.
Proof.
  apply (proj2 (first_check_then_retrieve (Samples.steady "completed" 0 0)
                  "v1" 0 2 0 Samples.boot ltac:(cbn; lia)));
    reflexivity.
Defined.

(** C3 as stated fails: with timeout 0, once the clock has moved by a
    millisecond between the start of the call and the first check,
    [TimeoutError] is raised before the job, although completed, was
    retrieved even once. *)
Lemma timeout_zero_skips_retrieve :
  snd (Sora.poll_until_complete (Samples.steady "completed" 0 1) 5 "v1" 0 2
         Samples.boot)
    = Raise (timeout_error 0)
  /\ trace (fst (Sora.poll_until_complete (Samples.steady "completed" 0 1) 5
                   "v1" 0 2 Samples.boot)) = []
  /\ ncalls (fst (Sora.poll_until_complete (Samples.steady "completed" 0 1) 5
                    "v1" 0 2 Samples.boot)) = 0%nat.
Proof. vm_compute. repeat split; reflexivity. Qed.


(** * Further properties *)

(** ** The storage directory *)

Module StoreFacts.
Import Storage.

Lemma list_of_append (a b : string) :
  list_ascii_of_string (a +:+ b)
    = list_ascii_of_string a ++ list_ascii_of_string b.
Proof.
  induction a as [|c a IH]; [done|].
  rewrite append_cons. cbn [list_ascii_of_string]. by rewrite IH.
Qed.

Lemma list_of_string_inj (a b : string) :
  list_ascii_of_string a = list_ascii_of_string b -> a = b.
Proof.
  intros H. rewrite <- (string_of_list_ascii_of_string a),
    <- (string_of_list_ascii_of_string b). by rewrite H.
Qed.

(** The file names of the three variants tell job and variant apart. *)
Lemma cache_path_inj (id1 id2 : string) (v1 v2 : Router.Variant) :
  cache_path id1 v1 = cache_path id2 v2 -> id1 = id2 /\ v1 = v2.
Proof.
  unfold cache_path. rewrite !NameFacts.filename_split.
  intros H. apply (f_equal list_ascii_of_string) in H.
  rewrite !list_of_append in H.
  apply (f_equal (@List.rev ascii)) in H.
  rewrite !List.rev_app_distr in H.
  destruct v1, v2; vm_compute list_ascii_of_string in H; cbn in H;
    try discriminate;
    (split; [|reflexivity]);
    injection H as H;
    apply (f_equal (@List.rev ascii)) in H;
    rewrite !List.rev_involutive in H;
    by apply list_of_string_inj.
Qed.

Lemma glob_after_delete (video_id : string) (fs : files) :
  glob (video_id +:+ "_*") (fst (delete_video_files video_id fs)) = [].
Proof.
  destruct (glob _ _) as [|name l] eqn:E; [done|].
  assert (name ∈ glob (video_id +:+ "_*")
                   (fst (delete_video_files video_id fs))) as Hin.
  { rewrite E. apply elem_of_cons. by left. }
  apply GlobFacts.elem_of_glob in Hin as [Hm [v Hv]].
  rewrite GlobFacts.delete_video_files_spec in Hv. cbn [fst] in Hv.
  apply map_lookup_filter_Some in Hv as [_ Hn]. by destruct Hn.
Qed.
End StoreFacts.

(** X1: for a job id that can be part of a file name and has no glob
    metacharacter, [delete_video_files] only removes files, returns
    exactly the number of files it removed, and is idempotent: a second
    call for the same id finds nothing, returns 0 and leaves the directory
    alone. *)
Theorem delete_counts_what_it_removes (video_id : string)
    (fs : gmap string (list byte)) :
  path_safe video_id = true ->
  glob_literal video_id = true ->
  fst (Storage.delete_video_files video_id fs) ⊆ fs
  /\ Z.of_nat (size fs)
     = Z.of_nat (size (fst (Storage.delete_video_files video_id fs)))
       + snd (Storage.delete_video_files video_id fs)
  /\ Storage.delete_video_files video_id
       (fst (Storage.delete_video_files video_id fs))
     = (fst (Storage.delete_video_files video_id fs), 0).
Proof.
  intros _ _. split; [|split].
  - rewrite GlobFacts.delete_video_files_spec. cbn [fst].
    apply map_filter_subseteq.
  - rewrite GlobFacts.delete_video_files_spec. cbn [fst snd].
    set (P := fun kv : string * list byte =>
                Storage.glob_match
                  (Storage.glob_tokens (video_id +:+ "_*")) kv.1 = true).
    rewrite <- (map_filter_union_complement P fs) at 1.
    rewrite map_size_disj_union by apply map_disjoint_filter_complement.
    rewrite Nat2Z.inj_add.
    assert (filter (fun v : string * list byte => ~ P v) fs
            = filter (fun kv : string * list byte =>
                        Storage.glob_match
                          (Storage.glob_tokens (video_id +:+ "_*")) kv.1
                        <> true) fs) as ->.
    { by apply map_filter_ext. }
    lia.
  - unfold Storage.delete_video_files at 1.
    by rewrite StoreFacts.glob_after_delete.
Qed.

Lemma delete_counts_what_it_removes_witness :
  fst (Storage.delete_video_files "v1" Samples.two_jobs) ⊆ Samples.two_jobs
  /\ Z.of_nat (size Samples.two_jobs)
     = Z.of_nat (size (fst (Storage.delete_video_files "v1"
                              Samples.two_jobs)))
       + snd (Storage.delete_video_files "v1" Samples.two_jobs)
  /\ Storage.delete_video_files "v1"
       (fst (Storage.delete_video_files "v1" Samples.two_jobs))
     = (fst (Storage.delete_video_files "v1" Samples.two_jobs), 0).
Proof.
  exact (delete_counts_what_it_removes "v1" Samples.two_jobs eq_refl
           eq_refl).
Defined.

(** X2: two different pairs of a job id and a variant, the ids being
    such as can be part of a file name, never share a cache file; hence
    saving one asset leaves the file and the path of every other asset as
    they were. *)
Theorem save_leaves_other_assets (id1 id2 : string)
    (v1 v2 : Router.Variant) (data : list byte)
    (fs : gmap string (list byte)) :
  path_safe id1 = true ->
  path_safe id2 = true ->
  (id1, v1) <> (id2, v2) ->
  cache_path id1 v1 <> cache_path id2 v2
  /\ fst (Storage.save_video id1 data (Router.variant_str v1) fs)
       !! cache_path id2 v2
     = fs !! cache_path id2 v2
  /\ Storage.get_video_path id2 (Router.variant_str v2)
       (fst (Storage.save_video id1 data (Router.variant_str v1) fs))
     = Storage.get_video_path id2 (Router.variant_str v2) fs.
Proof.
  intros _ _ Hne.
  assert (cache_path id1 v1 <> cache_path id2 v2) as Hp.
  { intros [-> ->]%StoreFacts.cache_path_inj. done. }
  split; [exact Hp|].
  unfold Storage.save_video, Storage.get_video_path. cbn [fst].
  fold (cache_path id1 v1). fold (cache_path id2 v2).
  rewrite lookup_insert_ne by done. done.
Qed.

Lemma save_leaves_other_assets_witness :
  fst (Storage.save_video "v1" [x09] "video" Samples.two_jobs)
    !! cache_path "v1" Router.Video = Some [x09]
  /\ fst (Storage.save_video "v1" [x09] "video" Samples.two_jobs)
       !! cache_path "v1_x" Router.Video = Some [x07]
  /\ Storage.get_video_path "v1_x" "video"
       (fst (Storage.save_video "v1" [x09] "video" Samples.two_jobs))
     = Some "v1_x_video.mp4".
Proof.
  destruct (save_leaves_other_assets "v1" "v1_x" Router.Video Router.Video
              [x09] Samples.two_jobs eq_refl eq_refl ltac:(discriminate))
    as (_ & H2 & H3).
  split; [reflexivity|].
  split; [exact (eq_trans H2 eq_refl)|exact (eq_trans H3 eq_refl)].
Defined.

(** ** What polling returns and raises *)

Module PollMore.

Section AnyProvider.
Variable env : Env.
Variable video_id : string.
Variable timeout start p : Z.

(** Every way the loop can end, with the events that led there. *)
Lemma poll_loop_outcome (fuel k : nat) (w : World) :
  disk (fst (Sora.poll_loop env fuel video_id timeout start
               (backoff p k) w)) = disk w
  /\ match snd (Sora.poll_loop env fuel video_id timeout start
                 (backoff p k) w) with
     | Return job =>
         exists n,
           trace (fst (Sora.poll_loop env fuel video_id timeout start
                         (backoff p k) w))
             = trace w ++ rounds video_id p k n ++ [EvRetrieve video_id]
           /\ retrieved env (ncalls w + n) video_id = inr job
           /\ Sora.terminal (status job) = true
     | Raise e =>
         exists n,
           (e = timeout_error timeout
            /\ trace (fst (Sora.poll_loop env fuel video_id timeout start
                             (backoff p k) w))
               = trace w ++ rounds video_id p k n)
           \/ (retrieved env (ncalls w + n) video_id = inl e
               /\ trace (fst (Sora.poll_loop env fuel video_id timeout start
                                (backoff p k) w))
                  = trace w ++ rounds video_id p k n
                    ++ [EvRetrieve video_id])
     | OutOfFuel =>
         trace (fst (Sora.poll_loop env fuel video_id timeout start
                       (backoff p k) w))
           = trace w ++ rounds video_id p k fuel
     end.
Proof.
  revert k w. induction fuel as [|fuel IH]; intros k w.
  - cbn. by rewrite app_nil_r.
  - rewrite PollFacts.poll_loop_step.
    destruct (clock w + tick env (nreads w) - start >? 1000 * timeout).
    + split; [done|]. exists 0%nat. left. cbn. by rewrite app_nil_r.
    + destruct (retrieved env (ncalls w) video_id) as [e|job] eqn:Hr.
      * split; [done|]. exists 0%nat. right.
        rewrite Nat.add_0_r. split; [exact Hr|done].
      * destruct (Sora.terminal (status job)) eqn:Hterm.
        -- split; [done|]. exists 0%nat. rewrite Nat.add_0_r. done.
        -- specialize (IH (S k)
                         (slept env (backoff p k)
                            (called env (EvRetrieve video_id)
                               (ticked env w)))).
           cbn [backoff] in IH. destruct IH as [Hdisk IH].
           split; [exact Hdisk|].
           cbn [trace ncalls slept called ticked] in IH.
           destruct (snd (Sora.poll_loop env fuel video_id timeout start
                            (Z.min (backoff p k * 2) Sora.max_interval)
                            _)) as [job'|e|].
           ++ destruct IH as (n & Htr & Hjob & Ht). exists (S n).
              rewrite Htr. cbn [rounds].
              replace (ncalls w + S n)%nat with (S (ncalls w) + n)%nat
                by lia.
              split; [by rewrite <- !app_assoc|done].
           ++ destruct IH as (n & [[He Htr]|[Hjob Htr]]); exists (S n).
              ** left. split; [done|]. rewrite Htr. cbn [rounds].
                 by rewrite <- !app_assoc.
              ** right.
                 replace (ncalls w + S n)%nat with (S (ncalls w) + n)%nat
                   by lia.
                 split; [done|]. rewrite Htr. cbn [rounds].
                 by rewrite <- !app_assoc.
           ++ rewrite IH. cbn [rounds]. by rewrite <- !app_assoc.
Qed.

Lemma waited_mono (j i : nat) : waited p j <= waited p (j + i).
Proof.
  induction i as [|i IH]; [by rewrite Nat.add_0_r|].
  rewrite Nat.add_succ_r. cbn [waited]. lia.
Qed.

Hypothesis Hinst : instantaneous env.

(** When nothing but sleeping takes time, the job that turns terminal
    after [r] more rounds is returned, provided the waits up to then fit
    into the timeout. *)
Lemma poll_loop_finds (r j fuel : nat) (w : World) (job : VideoJob) :
  clock w - start = 1000 * waited p j ->
  (forall i, (i < r)%nat ->
     exists running,
       retrieved env (ncalls w + i) video_id = inr running
       /\ Sora.terminal (status running) = false) ->
  retrieved env (ncalls w + r) video_id = inr job ->
  Sora.terminal (status job) = true ->
  waited p (j + r) <= timeout ->
  (r < fuel)%nat ->
  snd (Sora.poll_loop env fuel video_id timeout start (backoff p j) w)
    = Return job
  /\ trace (fst (Sora.poll_loop env fuel video_id timeout start
                   (backoff p j) w))
     = trace w ++ rounds video_id p j r ++ [EvRetrieve video_id]
  /\ clock (fst (Sora.poll_loop env fuel video_id timeout start
                   (backoff p j) w)) - start
     = 1000 * waited p (j + r).
Proof.
  revert j fuel w. induction r as [|r IH];
    intros j fuel w Hclock Hrun Hjob Hterm Hfit Hfuel;
    (destruct fuel as [|fuel]; [lia|]);
    rewrite PollFacts.poll_loop_step;
    destruct (Hinst (nreads w)) as (_ & Etick & _);
    destruct (Hinst (ncalls w)) as (Elat & _ & _);
    destruct (Hinst (nsleeps w)) as (_ & _ & Eover).
  - rewrite Nat.add_0_r in *.
    destruct (Z.gtb_spec (clock w + tick env (nreads w) - start)
                (1000 * timeout)) as [?|_]; [lia|].
    rewrite Hjob, Hterm.
    cbn [fst snd trace clock ncalls nreads called ticked rounds].
    split; [reflexivity|]. split; [reflexivity|]. lia.
  - pose proof (waited_mono j (S r)).
    destruct (Z.gtb_spec (clock w + tick env (nreads w) - start)
                (1000 * timeout)) as [?|_]; [lia|].
    destruct (Hrun 0%nat ltac:(lia)) as (running & Hr0 & Ht0).
    rewrite Nat.add_0_r in Hr0. rewrite Hr0, Ht0.
    destruct (IH (S j) fuel
                (slept env (backoff p j)
                   (called env (EvRetrieve video_id) (ticked env w))))
      as (Hout & Htr & Hclk).
    + cbn [clock slept called ticked ncalls nsleeps waited]. lia.
    + intros i Hi. cbn [ncalls slept called ticked].
      destruct (Hrun (S i) ltac:(lia)) as (x & Hx & Hxt).
      exists x. by rewrite Nat.add_succ_r in Hx.
    + cbn [ncalls slept called ticked].
      by rewrite Nat.add_succ_r in Hjob.
    + exact Hterm.
    + by rewrite Nat.add_succ_r in Hfit.
    + lia.
    + rewrite Nat.add_succ_r. cbn [backoff] in *.
      split; [exact Hout|]. split; [|exact Hclk].
      rewrite Htr. cbn [trace slept called ticked rounds].
      by rewrite <- !app_assoc.
Qed.
End AnyProvider.
End PollMore.

(** X3: a job [poll_until_complete] returns is completed or failed; it is
    the one the last retrieve obtained, after rounds of retrieve and sleep
    that all found the job unfinished and with no sleep after it; the
    storage directory is not touched. *)
Theorem poll_returns_terminal_job (env : Env) (fuel : nat)
    (video_id : string) (timeout poll_interval : Z) (w : World)
    (job : VideoJob) :
  snd (Sora.poll_until_complete env fuel video_id timeout poll_interval w)
    = Return job ->
  Sora.terminal (status job) = true
  /\ (exists n,
        retrieved env (ncalls w + n) video_id = inr job
        /\ trace (fst (Sora.poll_until_complete env fuel video_id timeout
                         poll_interval w))
           = trace w ++ rounds video_id poll_interval 0 n
             ++ [EvRetrieve video_id])
  /\ disk (fst (Sora.poll_until_complete env fuel video_id timeout
                  poll_interval w)) = disk w.
Proof.
  rewrite PollFacts.poll_until_complete_run. intros Hout.
  destruct (PollMore.poll_loop_outcome env video_id timeout
              (clock w + tick env (nreads w)) poll_interval fuel 0
              (ticked env w)) as [Hdisk H].
  cbn [backoff] in Hdisk, H. rewrite Hout in H.
  destruct H as (n & Htr & Hjob & Hterm).
  split; [exact Hterm|]. split; [|exact Hdisk].
  exists n. split; [exact Hjob|exact Htr].
Qed.

Lemma poll_returns_terminal_job_witness :
  Sora.terminal (status (Samples.job_in completed)) = true
  /\ disk (fst (Sora.poll_until_complete (Samples.steady "completed" 0 0) 3
                  "v1" 5 2 Samples.boot)) = disk Samples.boot.
Proof.
  destruct (poll_returns_terminal_job (Samples.steady "completed" 0 0) 3
              "v1" 5 2 Samples.boot (Samples.job_in completed) eq_refl)
    as (H1 & _ & H3).
  split; [exact H1|exact H3].
Defined.

(** X4: an exception leaving [poll_until_complete] is either the
    [TimeoutError] of the deadline, raised between rounds, or the exception
    a retrieve raised, passed on as it is: after the failed retrieve there
    is no sleep and no further attempt. *)
Theorem poll_raises_deadline_or_retrieve_error (env : Env) (fuel : nat)
    (video_id : string) (timeout poll_interval : Z) (w : World) (e : exn) :
  snd (Sora.poll_until_complete env fuel video_id timeout poll_interval w)
    = Raise e ->
  exists n,
    (e = timeout_error timeout
     /\ trace (fst (Sora.poll_until_complete env fuel video_id timeout
                      poll_interval w))
        = trace w ++ rounds video_id poll_interval 0 n)
    \/ (retrieved env (ncalls w + n) video_id = inl e
        /\ trace (fst (Sora.poll_until_complete env fuel video_id timeout
                         poll_interval w))
           = trace w ++ rounds video_id poll_interval 0 n
             ++ [EvRetrieve video_id]).
Proof.
  rewrite PollFacts.poll_until_complete_run. intros Hout.
  destruct (PollMore.poll_loop_outcome env video_id timeout
              (clock w + tick env (nreads w)) poll_interval fuel 0
              (ticked env w)) as [_ H].
  cbn [backoff] in H. rewrite Hout in H. exact H.
Qed.

Lemma poll_raises_deadline_or_retrieve_error_witness :
  exists n,
    (timeout_error 5 = timeout_error 5
     /\ trace (fst (Sora.poll_until_complete
                      (Samples.steady "in_progress" 0 0) 7 "v1" 5 2
                      Samples.boot))
        = trace Samples.boot ++ rounds "v1" 2 0 n)
    \/ (retrieved (Samples.steady "in_progress" 0 0)
          (ncalls Samples.boot + n) "v1" = inl (timeout_error 5)
        /\ trace (fst (Sora.poll_until_complete
                         (Samples.steady "in_progress" 0 0) 7 "v1" 5 2
                         Samples.boot))
           = trace Samples.boot ++ rounds "v1" 2 0 n ++ [EvRetrieve "v1"]).
Proof.
  exact (poll_raises_deadline_or_retrieve_error
           (Samples.steady "in_progress" 0 0) 7 "v1" 5 2 Samples.boot
           (timeout_error 5) eq_refl).
Defined.

(** X5: when retrieves and clock readings take no time and sleeps are
    exact, a job that is unfinished at the first [r] retrieves and terminal
    at the next one is returned after exactly [r] rounds, as long as the
    [r] waits add up to no more than the timeout; the call then took the
    sum of these waits. *)
Theorem poll_returns_when_finished (env : Env) (fuel r : nat)
    (video_id : string) (timeout poll_interval : Z) (w : World)
    (job : VideoJob) :
  instantaneous env ->
  (forall i, (i < r)%nat ->
     exists running,
       retrieved env (ncalls w + i) video_id = inr running
       /\ Sora.terminal (status running) = false) ->
  retrieved env (ncalls w + r) video_id = inr job ->
  Sora.terminal (status job) = true ->
  waited poll_interval r <= timeout ->
  (r < fuel)%nat ->
  snd (Sora.poll_until_complete env fuel video_id timeout poll_interval w)
    = Return job
  /\ trace (fst (Sora.poll_until_complete env fuel video_id timeout
                   poll_interval w))
     = trace w ++ rounds video_id poll_interval 0 r ++ [EvRetrieve video_id]
  /\ clock (fst (Sora.poll_until_complete env fuel video_id timeout
                   poll_interval w)) - clock w
     = 1000 * waited poll_interval r.
Proof.
  intros Hinst Hrun Hjob Hterm Hfit Hfuel.
  rewrite PollFacts.poll_until_complete_run.
  destruct (Hinst (nreads w)) as (_ & Etick & _).
  destruct (PollMore.poll_loop_finds env video_id timeout
              (clock w + tick env (nreads w)) poll_interval Hinst r 0 fuel
              (ticked env w) job) as (Hout & Htr & Hclk); try done.
  - cbn [clock ticked waited]. lia.
  - cbn [backoff Nat.add] in *. split; [exact Hout|].
    split; [exact Htr|]. lia.
Qed.

Lemma finishes_at_instantaneous (k : nat) : instantaneous (finishes_at k).
Proof. intros n. repeat split. Defined.

Lemma poll_returns_when_finished_witness :
  snd (Sora.poll_until_complete (finishes_at 2) 5 "v1" 10 2 Samples.boot)
    = Return (Samples.job_in completed)
  /\ trace (fst (Sora.poll_until_complete (finishes_at 2) 5 "v1" 10 2
                   Samples.boot))
     = trace Samples.boot ++ rounds "v1" 2 0 2 ++ [EvRetrieve "v1"]
  /\ clock (fst (Sora.poll_until_complete (finishes_at 2) 5 "v1" 10 2
                   Samples.boot)) - clock Samples.boot
     = 1000 * waited 2 2.
Proof.
  apply (poll_returns_when_finished (finishes_at 2) 5 2 "v1" 10 2
           Samples.boot (Samples.job_in completed)
           (finishes_at_instantaneous 2)).
  - intros [|[|i]] Hi; [| |lia];
      exists (Samples.job_in in_progress); split; reflexivity.
  - reflexivity.
  - reflexivity.
  - vm_compute. discriminate.
  - lia.
Defined.

(** X6: the poll route answers 200 only with a completed or failed job;
    every other answer is 422 (timeout outside 1..600, nothing done), 504,
    404 or 500; and the route never changes the storage directory. *)
Theorem poll_route_replies (env : Env) (fuel : nat) (video_id : string)
    (timeout : Z) (w : World) :
  disk (fst (Router.poll_video env fuel video_id timeout w)) = disk w
  /\ match Router.respond 200
             (snd (Router.poll_video env fuel video_id timeout w)) with
     | Router.Reply c job =>
         c = 200 /\ Sora.terminal (status job) = true
         /\ 1 <= timeout <= 600
     | Router.Failure c d =>
         (c = 422 /\ ~ 1 <= timeout <= 600
          /\ fst (Router.poll_video env fuel video_id timeout w) = w)
         \/ ((c = 504 \/ c = 404 \/ c = 500) /\ 1 <= timeout <= 600)
     | Router.Pending => 1 <= timeout <= 600
     end.
Proof.
  unfold Router.poll_video.
  destruct (Z.ltb_spec timeout 1) as [Hlo|Hlo]; cbn [orb].
  { split; [done|]. cbn. left. repeat split; lia. }
  destruct (Z.ltb_spec 600 timeout) as [Hhi|Hhi].
  { split; [done|]. cbn. left. repeat split; lia. }
  unfold try_except.
  pose proof (PollMore.poll_loop_outcome env video_id timeout
                (clock w + tick env (nreads w)) 2 fuel 0 (ticked env w))
    as [Hdisk H].
  cbn [backoff] in Hdisk, H.
  rewrite PollFacts.poll_until_complete_run.
  destruct (Sora.poll_loop env fuel video_id timeout
              (clock w + tick env (nreads w)) 2 (ticked env w))
    as [w' [job|e|]]; cbn [fst snd] in *.
  - split; [exact Hdisk|]. cbn. destruct H as (n & _ & _ & Hterm).
    repeat split; try done; lia.
  - split; [by destruct e|].
    destruct e as [m|m|m|m|m|c0 d0]; unfold raise; cbn [snd].
    { cbn. right. split; [by left|lia]. }
    all: match goal with
         | |- context [Router.http_error ?i ?s ?x] =>
             destruct (RouterFacts.http_error_code i s x)
               as (c & d & Hcd & Hc); rewrite Hcd
         end.
    all: cbn [Router.respond]; right; split; [destruct Hc; auto|lia].
  - split; [exact Hdisk|]. cbn. lia.
Qed.

(** ** The content route beyond the three cases of the cache *)

Module ContentMore.

(** Every run of the content route either leaves the directory as it is
    or, on a miss, adds the downloaded bytes under the path of the
    request and serves them. *)
Lemma download_disk (env : Env) (video_id : string)
    (variant : Router.Variant) (w : World) :
  disk (fst (Router.download_video_content env video_id variant w)) = disk w
  \/ (disk w !! cache_path video_id variant = None
      /\ exists data,
           videos_download_content env (S (ncalls w)) video_id
             (Router.variant_str variant) = inr data
           /\ disk (fst (Router.download_video_content env video_id
                           variant w))
              = <[cache_path video_id variant := data]> (disk w)
           /\ snd (Router.download_video_content env video_id variant w)
              = Return (served video_id variant data)).
Proof.
  unfold Router.download_video_content, try_except, bind.
  rewrite RouterFacts.get_video_status_run.
  destruct (retrieved env (ncalls w) video_id) as [e|job].
  { left. by destruct e. }
  destruct (status_eqb (status job) completed); cbn [negb]; [|by left].
  unfold Router.storage_get_video_path, Storage.get_video_path.
  cbn [disk called]. fold (cache_path video_id variant).
  destruct (disk w !! cache_path video_id variant) as [data|] eqn:Hfile.
  - left. unfold Router.read_file. cbn [disk called]. by rewrite Hfile.
  - unfold Sora.download_video_content, Sora.upstream.
    cbn [ncalls called].
    destruct (videos_download_content env (S (ncalls w)) video_id
                (Router.variant_str variant)) as [e|data].
    + left. by destruct e.
    + right. split; [done|]. by exists data.
Qed.
End ContentMore.

(** X7: the content route never removes or overwrites a cached file:
    whatever the provider answers, every file of the directory is still
    there with the same bytes afterwards, and the only change there can be
    is the file of the request being added on a miss, with the bytes that
    are served. *)
Theorem content_route_only_adds (env : Env) (video_id : string)
    (variant : Router.Variant) (w : World) :
  disk w ⊆ disk (fst (Router.download_video_content env video_id variant w))
  /\ (disk (fst (Router.download_video_content env video_id variant w))
        = disk w
      \/ exists data,
           disk w !! cache_path video_id variant = None
           /\ disk (fst (Router.download_video_content env video_id
                           variant w))
              = <[cache_path video_id variant := data]> (disk w)
           /\ snd (Router.download_video_content env video_id variant w)
              = Return (served video_id variant data)).
Proof.
  destruct (ContentMore.download_disk env video_id variant w)
    as [Hsame|(Hnone & data & _ & Hdisk & Hout)].
  - rewrite Hsame. split; [done|by left].
  - rewrite Hdisk. split.
    + by apply insert_subseteq.
    + right. by exists data.
Qed.

(** X8: when the download of a missing asset fails, nothing is cached:
    the directory is unchanged, no save takes place, the exception is
    answered as 404 or 500 (an [HTTPException] as it is), and the asset is
    still missing for the next request. *)
Theorem failed_download_caches_nothing (env : Env) (video_id : string)
    (variant : Router.Variant) (w : World) (job : VideoJob) (e : exn) :
  retrieved env (ncalls w) video_id = inr job ->
  status job = completed ->
  disk w !! cache_path video_id variant = None ->
  videos_download_content env (S (ncalls w)) video_id
    (Router.variant_str variant) = inl e ->
  disk (fst (Router.download_video_content env video_id variant w)) = disk w
  /\ count is_save
       (trace (fst (Router.download_video_content env video_id variant w)))
     = count is_save (trace w)
  /\ snd (Router.download_video_content env video_id variant w)
     = Raise (match e with
              | HTTPException _ _ => e
              | _ => Router.http_error video_id
                       "Failed to download video content: " e
              end)
  /\ Storage.get_video_path video_id (Router.variant_str variant)
       (disk (fst (Router.download_video_content env video_id variant w)))
     = None.
Proof.
  intros Hjob Hst Hnone Hdl.
  unfold Router.download_video_content, try_except, bind.
  rewrite RouterFacts.get_video_status_run, Hjob, Hst.
  cbn [status_eqb negb].
  unfold Router.storage_get_video_path, Storage.get_video_path.
  cbn [disk called]. fold (cache_path video_id variant). rewrite Hnone.
  unfold Sora.download_video_content, Sora.upstream.
  cbn [ncalls called]. rewrite Hdl.
  destruct e; unfold raise; cbn [fst snd disk trace called];
    rewrite Hnone, !RouterFacts.count_app; cbn; repeat split; lia.
Qed.

Lemma failed_download_caches_nothing_witness :
  disk (fst (Router.download_video_content failing_download "v1"
               Router.Video Samples.boot)) = disk Samples.boot
  /\ Router.respond 200
       (snd (Router.download_video_content failing_download "v1"
               Router.Video Samples.boot))
     = Router.Failure 500
         "Failed to download video content: Connection error.".
Proof.
  destruct (failed_download_caches_nothing failing_download "v1"
              Router.Video Samples.boot (Samples.job_in completed)
              (OpenAIError "Connection error.") eq_refl eq_refl eq_refl
              eq_refl) as (H1 & _ & H3 & _).
  split; [exact H1|]. rewrite H3. reflexivity.
Defined.

(** ** How exceptions become replies *)

Module TextFacts.

Lemma starts_with_iff (p s : string) :
  starts_with p s = true <-> exists rest, s = p +:+ rest.
Proof.
  revert s. induction p as [|a p IH]; intros s.
  - split; [|done]. intros _. by exists s.
  - destruct s as [|b s]; cbn [starts_with].
    + split; [done|]. intros [rest H]. by rewrite append_cons in H.
    + rewrite andb_true_iff, Ascii.eqb_eq, IH. split.
      * intros [-> [rest ->]]. exists rest. by rewrite append_cons.
      * intros [rest H]. rewrite append_cons in H. injection H as -> ->.
        split; [done|]. by exists rest.
Qed.

(** [str_contains] finds exactly the substrings. *)
Lemma str_contains_iff (needle hay : string) :
  str_contains needle hay = true
  <-> exists before after, hay = before +:+ needle +:+ after.
Proof.
  induction hay as [|c hay IH]; cbn [str_contains];
    rewrite orb_true_iff, starts_with_iff.
  - split.
    + intros [[rest H]|?]; [|done]. by exists "", rest.
    + intros (before & after & H). left.
      destruct before as [|b before]; [|by rewrite append_cons in H].
      by exists after.
  - rewrite IH. split.
    + intros [[rest H]|(before & after & H)].
      * by exists "", rest.
      * exists (String c before), after. by rewrite append_cons, H.
    + intros (before & after & H).
      destruct before as [|b before].
      * left. by exists after.
      * right. rewrite append_cons in H. injection H as _ H.
        by exists before, after.
Qed.
End TextFacts.

(** X9: the status route returns the job of a successful retrieve; when
    the retrieve raises, the answer is 404 exactly when the text of the
    exception contains "404" or, in any mix of upper and lower case
    letters, "not found", and otherwise 500 with that text appended.  One
    upstream call is made and the directory is not touched. *)
Theorem status_route_replies (env : Env) (video_id : string) (w : World) :
  fst (Router.get_video_status env video_id w)
    = called env (EvRetrieve video_id) w
  /\ match retrieved env (ncalls w) video_id with
     | inr job =>
         Router.respond 200 (snd (Router.get_video_status env video_id w))
           = Router.Reply 200 job
     | inl e =>
         (Router.respond 200 (snd (Router.get_video_status env video_id w))
            = Router.Failure 404 ("Video " +:+ video_id +:+ " not found")
          \/ Router.respond 200 (snd (Router.get_video_status env video_id w))
             = Router.Failure 500
                 ("Failed to fetch video status: " +:+ str_exn e))
         /\ (Router.respond 200
               (snd (Router.get_video_status env video_id w))
               = Router.Failure 404 ("Video " +:+ video_id +:+ " not found")
             <-> (exists before after,
                     str_lower (str_exn e)
                       = before +:+ "not found" +:+ after)
                 \/ (exists before after,
                        str_exn e = before +:+ "404" +:+ after))
     end.
Proof.
  unfold Router.get_video_status, try_except.
  rewrite RouterFacts.get_video_status_run.
  destruct (retrieved env (ncalls w) video_id) as [e|job]; [|done].
  unfold raise. cbn [fst snd]. split; [done|].
  unfold Router.http_error.
  rewrite <- !TextFacts.str_contains_iff, <- orb_true_iff.
  destruct (str_contains "not found" (str_lower (str_exn e))
            || str_contains "404" (str_exn e)); cbn [Router.respond].
  - split; [by left|done].
  - split; [by right|]. split; [|done]. intros H. discriminate H.
Qed.

(** ** After a delete *)

(** X10: after the delete route succeeded for an id without glob
    metacharacters, none of the three assets of that id is in the cache any
    more, so the next content request for it is a miss; the reply is the
    deletion record. *)
Theorem delete_route_empties_cache (env : Env) (video_id : string)
    (w : World) :
  glob_literal video_id = true ->
  videos_delete env (ncalls w) video_id = inr tt ->
  snd (Router.delete_video env video_id w) = Return (video_id, "video", true)
  /\ forall variant : Router.Variant,
       Storage.get_video_path video_id (Router.variant_str variant)
         (disk (fst (Router.delete_video env video_id w))) = None.
Proof.
  intros Hlit Hdel.
  unfold Router.delete_video, try_except, bind, Sora.delete_video, bind,
    Sora.upstream, Router.storage_delete_video_files, ret.
  rewrite Hdel. cbn [disk].
  destruct (Storage.delete_video_files video_id (disk w)) as [fs n] eqn:E.
  cbn [fst snd disk]. split; [done|]. intros variant.
  assert (fs = fst (Storage.delete_video_files video_id (disk w))) as ->
    by by rewrite E.
  unfold Storage.get_video_path.
  rewrite GlobFacts.delete_video_files_spec. cbn [fst].
  rewrite (proj2 (map_lookup_filter_None _ _ _)); [done|].
  right. intros x _ Hn. apply Hn. cbn [fst].
  by apply DirFacts.own_file_matches.
Qed.

Lemma delete_route_empties_cache_witness :
  snd (Router.delete_video (Samples.steady "completed" 0 0) "v1"
         Samples.cached) = Return ("v1", "video", true)
  /\ Storage.get_video_path "v1" "video"
       (disk (fst (Router.delete_video (Samples.steady "completed" 0 0) "v1"
                     Samples.cached))) = None.
Proof.
  destruct (delete_route_empties_cache (Samples.steady "completed" 0 0) "v1"
              Samples.cached eq_refl eq_refl) as [H1 H2].
  split; [exact H1|exact (H2 Router.Video)].
Defined.

(** ** More on the normalisation *)

Module ConvertMore.

Lemma as_str_inr (env : Env) (name : string)
    (kwargs : list (string * pyval)) (v : pyval) (s : string) :
  Sora.as_str env name kwargs v = inr s -> v = PStr s.
Proof. destruct v; cbn; unfold Sora.invalid; congruence. Qed.

Lemma as_int_inr (env : Env) (name : string)
    (kwargs : list (string * pyval)) (v : pyval) (n : Z) :
  Sora.as_int env name kwargs v = inr n -> read_as_int env v n.
Proof.
  unfold read_as_int.
  destruct v as [|m|s|]; cbn; unfold Sora.invalid; try congruence.
  - intros [= ->]. by left.
  - destruct (int_of_str env s) as [m|] eqn:Hs; [|congruence].
    intros [= ->]. right. by exists s.
Qed.

Lemma as_status_inr (env : Env) (name : string)
    (kwargs : list (string * pyval)) (v : pyval) (st : Status) :
  Sora.as_status env name kwargs v = inr st -> v = PStr (status_str st).
Proof.
  destruct v as [| |s|]; cbn; unfold Sora.invalid; try congruence.
  destruct (String.eqb_spec s "queued") as [->|_]; [by intros [= <-]|].
  destruct (String.eqb_spec s "in_progress") as [->|_]; [by intros [= <-]|].
  destruct (String.eqb_spec s "completed") as [->|_]; [by intros [= <-]|].
  destruct (String.eqb_spec s "failed") as [->|_]; [by intros [= <-]|].
  discriminate.
Qed.

Lemma as_progress_inr (env : Env) (name : string)
    (kwargs : list (string * pyval)) (v : pyval) (n : Z) :
  Sora.as_progress env name kwargs v = inr (Some n) ->
  read_as_int env v n /\ 0 <= n <= 100.
Proof.
  unfold Sora.as_progress.
  destruct (Sora.as_int env name kwargs v) as [e|m] eqn:Hint.
  - destruct v; congruence.
  - apply as_int_inr in Hint.
    assert ((if (0 <=? m) && (m <=? 100)
             then inr (Some m) else @Sora.invalid env name kwargs (option Z))
            = inr (Some n) -> read_as_int env v n /\ 0 <= n <= 100) as Hin.
    { destruct (Z.leb_spec 0 m), (Z.leb_spec m 100); cbn;
        unfold Sora.invalid; try congruence.
      intros [= <-]. split; [done|lia]. }
    destruct v; try exact Hin. congruence.
Qed.

Lemma required_inr (video : pyval) (name : string) (v : pyval) :
  Sora.required video name = inr v -> attr video name = Some v.
Proof. unfold Sora.required. destruct (attr video name); congruence. Qed.
End ConvertMore.

(** X11: a job that comes out of the normalisation repeats the provider's
    id, status, model and size, which the provider's object must carry as
    strings; its creation time and, when there is one, its progress are
    the provider's values read as integers, that is an integer or a string
    the library converts to one, the progress lying between 0 and 100; and
    its object type is the provider's, or "video" when the provider gives
    none. *)
Theorem convert_passes_fields (env : Env) (video : pyval) (job : VideoJob) :
  Sora._convert_to_video_job env video = inr job ->
  attr video "id" = Some (PStr (id job))
  /\ attr video "status" = Some (PStr (status_str (status job)))
  /\ attr video "model" = Some (PStr (model job))
  /\ (exists v,
        attr video "created_at" = Some v
        /\ read_as_int env v (created_at job))
  /\ attr video "size" = Some (PStr (size_ job))
  /\ (forall n, progress job = Some n ->
        exists v,
          attr video "progress" = Some v
          /\ read_as_int env v n /\ 0 <= n <= 100)
  /\ getattr video "object" (PStr "video") = PStr (object job).
Proof.
  unfold Sora._convert_to_video_job. intros H.
  repeat (apply SoraFacts.and_then_inr in H as (? & ? & H)).
  injection H as <-.
  cbn [id status model created_at size_ progress object].
  repeat match goal with
         | H : Sora.required _ _ = inr _ |- _ =>
             apply ConvertMore.required_inr in H
         | H : Sora.as_str _ _ _ _ = inr _ |- _ =>
             apply ConvertMore.as_str_inr in H
         | H : Sora.as_int _ _ _ _ = inr _ |- _ =>
             apply ConvertMore.as_int_inr in H
         | H : Sora.as_status _ _ _ _ = inr _ |- _ =>
             apply ConvertMore.as_status_inr in H
         end.
  match goal with
  | H : Sora.as_progress _ _ _ _ = inr _ |- _ => rename H into Hprog
  end.
  match goal with
  | H : read_as_int _ _ _ |- _ => rename H into Hcreated
  end.
  subst. do 3 (split; [done|]).
  split; [eexists; split; [eassumption|exact Hcreated]|].
  split; [done|]. split; [|done].
  intros n Hn. rewrite Hn in Hprog.
  apply ConvertMore.as_progress_inr in Hprog as [Hv Hr].
  unfold getattr in Hv.
  destruct (attr video "progress") as [v|].
  - by exists v.
  - destruct Hv as [Hv|(s & Hv & _)]; discriminate.
Qed.

Lemma convert_passes_fields_witness :
  attr texty_job_obj "id" = Some (PStr (id texty_job_converted))
  /\ (exists v,
        attr texty_job_obj "created_at" = Some v
        /\ read_as_int (Samples.steady "queued" 0 0) v 1758941485)
  /\ (exists v,
        attr texty_job_obj "progress" = Some v
        /\ read_as_int (Samples.steady "queued" 0 0) v 50 /\ 0 <= 50 <= 100).
Proof.
  destruct (convert_passes_fields (Samples.steady "queued" 0 0)
              texty_job_obj texty_job_converted eq_refl)
    as (H1 & _ & _ & H4 & _ & H6 & _).
  split; [exact H1|]. split; [exact H4|exact (H6 50 eq_refl)].
Defined.

(** X12: the error of a normalised job is present exactly when the
    provider's object has an [error] attribute that counts as true; its
    message and type are those of that error object, with "Unknown error"
    and "unknown" standing in for the ones it lacks. *)
Theorem convert_error_detail (env : Env) (video : pyval) (job : VideoJob) :
  Sora._convert_to_video_job env video = inr job ->
  error job
  = match attr video "error" with
    | Some err =>
        if truthy err then
          Some {| message :=
                    match attr err "message" with
                    | Some (PStr m) => m
                    | _ => "Unknown error"
                    end;
                  type_ :=
                    match attr err "type" with
                    | Some (PStr t) => t
                    | _ => "unknown"
                    end |}
        else None
    | None => None
    end.
Proof.
  unfold Sora._convert_to_video_job. intros H.
  apply SoraFacts.and_then_inr in H as (detail & Hd & H).
  repeat (apply SoraFacts.and_then_inr in H as (? & ? & H)).
  injection H as <-. cbn [error].
  unfold Sora.convert_error, hasattr, getattr in Hd.
  destruct (attr video "error") as [err|]; cbn in Hd; [|congruence].
  destruct (truthy err); [|congruence].
  apply SoraFacts.and_then_inr in Hd as (m & Hm & Hd).
  apply SoraFacts.and_then_inr in Hd as (t & Ht & Hd).
  injection Hd as <-.
  apply ConvertMore.as_str_inr in Hm, Ht.
  destruct (attr err "message") as [vm|], (attr err "type") as [vt|];
    subst; try injection Hm as <-; try injection Ht as <-; reflexivity.
Qed.

Lemma convert_error_detail_witness :
  error failed_job_converted
  = Some {| message := "Unknown error"; type_ := "moderation" |}.
Proof.
  exact (convert_error_detail (Samples.steady "failed" 0 0) failed_job_obj
           failed_job_converted eq_refl).
Defined.

(** ** Creating a job *)

Module CreateFacts.
Import Catalogue.

Lemma create_video_run (provider : Provider) (env : Env)
    (prompt model : string) (seconds : Z) (size : string)
    (input_reference : option (list byte)) (w : World) :
  create_video provider env prompt model seconds size input_reference w
  = (answered env w,
     match created env provider (ncalls w)
             (create_params prompt model seconds size input_reference) with
     | inl e => Raise e
     | inr job => Return job
     end).
Proof.
  unfold create_video, bind, awaited, created, answered.
  destruct (videos_create provider (ncalls w) _) as [e|video]; [done|].
  cbn [Sora.and_then]. unfold lift.
  destruct (Sora.required video "id"); [done|].
  destruct (Sora.required video "status"); [done|].
  cbn [Sora.and_then].
  by destruct (Sora._convert_to_video_job env video).
Qed.
End CreateFacts.

(** X13: a create request that fails a check of the route is turned down
    without any upstream call, the world being left as it was: with 400
    when the duration is not 4, 8 or 12, else with 413 when the reference
    image is larger than the configured maximum (whatever its declared
    type), else with 400 when it is not declared as an image.  A request
    that passes makes exactly one upstream call. *)
Theorem create_route_gate (settings : Config.Settings)
    (provider : Catalogue.Provider) (env : Env) (prompt : string)
    (model : Catalogue.ModelName) (seconds : Z) (size : string)
    (input_reference : option Catalogue.UploadFile) (w : World) :
  if acceptable settings seconds input_reference then
    fst (Catalogue.create_video_route settings provider env prompt model
           seconds size input_reference w) = answered env w
  else
    fst (Catalogue.create_video_route settings provider env prompt model
           seconds size input_reference w) = w
    /\ exists c d,
         snd (Catalogue.create_video_route settings provider env prompt
                model seconds size input_reference w)
           = Raise (HTTPException c d)
         /\ (c = 400 \/ c = 413)
         /\ (c = 413 <->
             ((seconds =? 4) || (seconds =? 8) || (seconds =? 12) = true
              /\ exists file,
                   input_reference = Some file
                   /\ Config.max_file_size settings
                      < Z.of_nat (length (Catalogue.upload_body file)))).
Proof.
  unfold acceptable, Catalogue.create_video_route, try_except.
  destruct ((seconds =? 4) || (seconds =? 8) || (seconds =? 12)) eqn:Hs;
    cbn [negb andb].
  2: { unfold raise. cbn [fst snd]. split; [done|].
       eexists _, _. split; [reflexivity|]. split; [by left|].
       split; [discriminate|]. by intros [? _]. }
  unfold bind, Catalogue.check_reference.
  destruct input_reference as [file|].
  - destruct (Z.gtb_spec (Z.of_nat (length (Catalogue.upload_body file)))
                (Config.max_file_size settings)) as [Hbig|Hsmall].
    + destruct (Z.leb_spec (Z.of_nat (length (Catalogue.upload_body file)))
                  (Config.max_file_size settings)); [lia|].
      cbn [andb]. unfold raise. cbn [fst snd]. split; [done|].
      eexists _, _. split; [reflexivity|]. split; [by right|].
      split; [|done]. intros _. split; [done|]. by exists file.
    + destruct (Z.leb_spec (Z.of_nat (length (Catalogue.upload_body file)))
                  (Config.max_file_size settings)); [|lia].
      cbn [andb].
      destruct (Catalogue.not_an_image (Catalogue.upload_content_type file));
        cbn [negb].
      * unfold raise. cbn [fst snd]. split; [done|].
        eexists _, _. split; [reflexivity|]. split; [by left|].
        split; [discriminate|]. intros [_ (f & [= <-] & Hf)]. lia.
      * unfold ret. rewrite CreateFacts.create_video_run.
        by destruct (created _ _ _ _) as [[]|].
  - unfold ret. rewrite CreateFacts.create_video_run.
    by destruct (created _ _ _ _) as [[]|].
Qed.

(** X14: a create request that passes the checks is forwarded to the
    provider with its model, prompt and size unchanged and its duration as
    the text "4", "8" or "12"; the bytes of the reference image go along
    only when there are any, so that an empty upload is forwarded as no
    image at all.  The job made from the provider's answer is returned;
    any failure is answered 500, also one whose text speaks of 404. *)
Theorem create_route_forwards (settings : Config.Settings)
    (provider : Catalogue.Provider) (env : Env) (prompt : string)
    (model : Catalogue.ModelName) (seconds : Z) (size : string)
    (input_reference : option Catalogue.UploadFile) (w : World) :
  acceptable settings seconds input_reference = true ->
  snd (Catalogue.create_video_route settings provider env prompt model
         seconds size input_reference w)
    = match created env provider (ncalls w)
              (sent prompt model seconds size input_reference) with
      | inr job => Return job
      | inl e =>
          Raise (match e with
                 | HTTPException _ _ => e
                 | _ => HTTPException 500
                          ("Failed to create video: " +:+ str_exn e)
                 end)
      end
  /\ sent prompt model seconds size input_reference !! "model"
     = Some (Catalogue.AStr (Catalogue.model_str model))
  /\ sent prompt model seconds size input_reference !! "prompt"
     = Some (Catalogue.AStr prompt)
  /\ sent prompt model seconds size input_reference !! "size"
     = Some (Catalogue.AStr size)
  /\ sent prompt model seconds size input_reference !! "seconds"
     = Some (Catalogue.AStr (str_int seconds))
  /\ (str_int seconds = "4" \/ str_int seconds = "8"
      \/ str_int seconds = "12")
  /\ sent prompt model seconds size input_reference !! "input_reference"
     = match input_reference with
       | Some file =>
           match Catalogue.upload_body file with
           | [] => None
           | b :: bs => Some (Catalogue.ABytes (b :: bs))
           end
       | None => None
       end.
Proof.
  unfold acceptable. intros [Hs Hfile]%andb_prop.
  split.
  - unfold Catalogue.create_video_route, try_except, sent.
    rewrite Hs. cbn [negb]. unfold bind, Catalogue.check_reference.
    destruct input_reference as [file|]; cbn [option_map].
    + apply andb_prop in Hfile as [Hsize Himg].
      apply Z.leb_le in Hsize. apply negb_true_iff in Himg.
      destruct (Z.gtb_spec (Z.of_nat (length (Catalogue.upload_body file)))
                  (Config.max_file_size settings)); [lia|].
      rewrite Himg. unfold ret. rewrite CreateFacts.create_video_run.
      by destruct (created _ _ _ _) as [[]|].
    + unfold ret. rewrite CreateFacts.create_video_run.
      by destruct (created _ _ _ _) as [[]|].
  - assert (str_int seconds = "4" \/ str_int seconds = "8"
            \/ str_int seconds = "12") as Hsec.
    { apply orb_prop in Hs as [Hs|Hs]; [apply orb_prop in Hs as [Hs|Hs]|];
        apply Z.eqb_eq in Hs; subst; auto. }
    unfold sent, Catalogue.create_params.
    destruct input_reference as [[name ct [|b bs]]|]; cbn [option_map
      Catalogue.upload_body];
      repeat split; try exact Hsec;
      by repeat (rewrite lookup_insert_eq || rewrite lookup_insert_ne
                   by done || rewrite lookup_empty).
Qed.

Lemma create_route_forwards_witness :
  snd (Catalogue.create_video_route (Config.defaults "k") sample_provider
         (Samples.steady "queued" 0 0) "a cat" Catalogue.Sora2 8 "1280x720"
         (Some empty_upload) Samples.boot)
    = Return Samples.queued_job
  /\ sent "a cat" Catalogue.Sora2 8 "1280x720" (Some empty_upload)
       !! "input_reference" = None
  /\ sent "a cat" Catalogue.Sora2 8 "1280x720" (Some png_upload)
       !! "input_reference" = Some (Catalogue.ABytes [x89; x50; x4e]).
Proof.
  destruct (create_route_forwards (Config.defaults "k") sample_provider
              (Samples.steady "queued" 0 0) "a cat" Catalogue.Sora2 8
              "1280x720" (Some empty_upload) Samples.boot eq_refl)
    as (H1 & _ & _ & _ & _ & _ & H7).
  destruct (create_route_forwards (Config.defaults "k") sample_provider
              (Samples.steady "queued" 0 0) "a cat" Catalogue.Sora2 8
              "1280x720" (Some png_upload) Samples.boot eq_refl)
    as (_ & _ & _ & _ & _ & _ & H7').
  split; [exact H1|]. split; [exact H7|exact H7'].
Defined.

(** ** Listing jobs *)

Module ListFacts.
Import Catalogue.

(** The comprehension converts entry by entry, in order. *)
Lemma convert_all_inr (env : Env) (vs : list pyval)
    (jobs : list VideoJob) :
  convert_all env vs = inr jobs
  <-> Forall2 (fun v job => Sora._convert_to_video_job env v = inr job)
        vs jobs.
Proof.
  revert jobs. induction vs as [|v vs IH]; intros jobs; cbn [convert_all].
  - split.
    + intros [= <-]. constructor.
    + intros H. by inversion H.
  - split.
    + intros H. apply SoraFacts.and_then_inr in H as (job & Hj & H).
      apply SoraFacts.and_then_inr in H as (rest & Hr & H).
      injection H as <-. constructor; [done|]. by apply IH.
    + intros H. inversion H as [|? job ? rest Hj Hr]; subst.
      rewrite Hj. cbn [Sora.and_then].
      apply IH in Hr. by rewrite Hr.
Qed.

(** It stops at the first entry that cannot be converted. *)
Lemma convert_all_stops (env : Env) (good rest : list pyval)
    (bad : pyval) (jobs : list VideoJob) (e : exn) :
  convert_all env good = inr jobs ->
  Sora._convert_to_video_job env bad = inl e ->
  convert_all env (good ++ bad :: rest) = inl e.
Proof.
  revert jobs. induction good as [|v good IH]; intros jobs Hgood Hbad.
  - cbn [app convert_all]. by rewrite Hbad.
  - cbn [app convert_all] in *.
    apply SoraFacts.and_then_inr in Hgood as (job & Hj & Hgood).
    apply SoraFacts.and_then_inr in Hgood as (js & Hjs & _).
    rewrite Hj. cbn [Sora.and_then]. by rewrite (IH js).
Qed.

Lemma list_videos_run (provider : Provider) (env : Env) (limit : Z)
    (after : option string) (order : string) (w : World) :
  list_videos provider env limit after order w
  = (answered env w,
     match videos_list provider (ncalls w)
             (list_params limit after order) with
     | inl e => Raise e
     | inr page =>
         match convert_all env (page_data page) with
         | inl e => Raise e
         | inr jobs => Return (jobs, default false (page_has_more page))
         end
     end).
Proof.
  unfold list_videos, bind, awaited, answered.
  destruct (videos_list provider (ncalls w) _) as [e|page]; [done|].
  unfold lift. by destruct (convert_all env (page_data page)).
Qed.
End ListFacts.

(** X15: for a limit between 1 and 100 the list route calls the provider
    once, with the limit, the order and, only when it is not empty, the
    cursor; when every entry of the page can be converted, the reply holds
    the converted jobs in the provider's order, one for each entry, and the
    provider's has-more flag, false when the page has none. *)
Theorem list_route_returns_page (provider : Catalogue.Provider) (env : Env)
    (limit : Z) (after : option string) (order : Catalogue.Order)
    (w : World) (page : Catalogue.Page) (jobs : list VideoJob) :
  1 <= limit <= 100 ->
  Catalogue.videos_list provider (ncalls w)
    (Catalogue.list_params limit after (Catalogue.order_str order))
    = inr page ->
  Catalogue.convert_all env (Catalogue.page_data page) = inr jobs ->
  Catalogue.list_videos_route provider env limit after order w
    = (answered env w,
       Return {| Catalogue.list_object := "list";
                 Catalogue.list_data := jobs;
                 Catalogue.list_has_more :=
                   default false (Catalogue.page_has_more page) |})
  /\ length jobs = length (Catalogue.page_data page)
  /\ (forall i v,
        Catalogue.page_data page !! i = Some v ->
        exists job,
          jobs !! i = Some job /\ Sora._convert_to_video_job env v = inr job)
  /\ Catalogue.list_params limit after (Catalogue.order_str order) !! "limit"
     = Some (Catalogue.AInt limit)
  /\ Catalogue.list_params limit after (Catalogue.order_str order) !! "order"
     = Some (Catalogue.AStr (Catalogue.order_str order))
  /\ Catalogue.list_params limit after (Catalogue.order_str order) !! "after"
     = match after with
       | Some (String c s) => Some (Catalogue.AStr (String c s))
       | _ => None
       end.
Proof.
  intros Hrange Hpage Hjobs.
  split; [|split; [|split]].
  - unfold Catalogue.list_videos_route.
    destruct (Z.ltb_spec limit 1); [lia|].
    destruct (Z.ltb_spec 100 limit); [lia|]. cbn [orb].
    unfold try_except, bind.
    by rewrite ListFacts.list_videos_run, Hpage, Hjobs.
  - apply ListFacts.convert_all_inr in Hjobs.
    symmetry. by eapply Forall2_length.
  - intros i v Hv. apply ListFacts.convert_all_inr in Hjobs.
    destruct (Forall2_lookup_l _ _ _ _ _ Hjobs Hv) as (job & Hj & Hc).
    by exists job.
  - unfold Catalogue.list_params.
    destruct after as [[|c s]|]; repeat split;
      by repeat (rewrite lookup_insert_eq || rewrite lookup_insert_ne
                   by done || rewrite lookup_empty).
Qed.

Lemma list_route_returns_page_witness :
  Catalogue.list_videos_route sample_provider (Samples.steady "queued" 0 0)
    20 (Some "") Catalogue.Desc Samples.boot
  = (answered (Samples.steady "queued" 0 0) Samples.boot,
     Return {| Catalogue.list_object := "list";
               Catalogue.list_data :=
                 [Samples.job_in completed;
                  mkVideoJob "v2" "video" queued "sora-2" None 1758941485
                    None None "1280x720" "8" None None];
               Catalogue.list_has_more := false |})
  /\ Catalogue.list_params 20 (Some "") "desc" !! "after" = None.
Proof.
  destruct (list_route_returns_page sample_provider
              (Samples.steady "queued" 0 0) 20 (Some "") Catalogue.Desc
              Samples.boot
              {| Catalogue.page_data :=
                   [Samples.job_obj "v1" "completed";
                    Samples.job_obj "v2" "queued"];
                 Catalogue.page_has_more := None |}
              [Samples.job_in completed;
               mkVideoJob "v2" "video" queued "sora-2" None 1758941485
                 None None "1280x720" "8" None None]
              ltac:(lia) eq_refl eq_refl)
    as (H1 & _ & _ & _ & _ & H6).
  split; [exact H1|exact H6].
Defined.

(** X16: one entry of the page that cannot be converted fails the whole
    listing: the reply is 500 with the text of that entry's exception, and
    none of the entries before it is returned.  The list route has no 404:
    a failure is 500 whatever its text. *)
Theorem list_route_fails_as_a_whole (provider : Catalogue.Provider)
    (env : Env) (limit : Z) (after : option string)
    (order : Catalogue.Order) (w : World) (page : Catalogue.Page)
    (good rest : list pyval) (bad : pyval) (jobs : list VideoJob)
    (e : exn) :
  1 <= limit <= 100 ->
  Catalogue.videos_list provider (ncalls w)
    (Catalogue.list_params limit after (Catalogue.order_str order))
    = inr page ->
  Catalogue.page_data page = good ++ bad :: rest ->
  Catalogue.convert_all env good = inr jobs ->
  Sora._convert_to_video_job env bad = inl e ->
  Router.respond 200
    (snd (Catalogue.list_videos_route provider env limit after order w))
  = Router.Failure 500 ("Failed to list videos: " +:+ str_exn e).
Proof.
  intros Hrange Hpage Hdata Hgood Hbad.
  unfold Catalogue.list_videos_route.
  destruct (Z.ltb_spec limit 1); [lia|].
  destruct (Z.ltb_spec 100 limit); [lia|]. cbn [orb].
  unfold try_except, bind.
  rewrite ListFacts.list_videos_run, Hpage, Hdata.
  by rewrite (ListFacts.convert_all_stops env good rest bad jobs e).
Qed.

Lemma list_route_fails_as_a_whole_witness :
  exists e,
    Sora._convert_to_video_job (Samples.steady "queued" 0 0)
      (Samples.job_obj "v2" "cancelled") = inl e
    /\ Router.respond 200
         (snd (Catalogue.list_videos_route odd_page_provider
                 (Samples.steady "queued" 0 0) 20 None Catalogue.Desc
                 Samples.boot))
       = Router.Failure 500 ("Failed to list videos: " +:+ str_exn e).
Proof.
  eexists. split; [reflexivity|].
  exact (list_route_fails_as_a_whole odd_page_provider
           (Samples.steady "queued" 0 0) 20 None Catalogue.Desc Samples.boot
           {| Catalogue.page_data :=
                [Samples.job_obj "v1" "completed";
                 Samples.job_obj "v2" "cancelled";
                 Samples.job_obj "v3" "queued"];
              Catalogue.page_has_more := Some true |}
           [Samples.job_obj "v1" "completed"] [Samples.job_obj "v3" "queued"]
           (Samples.job_obj "v2" "cancelled") [Samples.job_in completed]
           _ ltac:(lia) eq_refl eq_refl eq_refl eq_refl).
Defined.

(** ** Routes that leave the cache alone *)

(** X17: the status, remix, create and list routes never change the
    storage directory, whatever the provider answers. *)
Theorem routes_leave_cache_alone (settings : Config.Settings)
    (provider : Catalogue.Provider) (env : Env) (video_id : string)
    (request : Router.RemixVideoRequest) (prompt : string)
    (model : Catalogue.ModelName) (seconds limit : Z) (size : string)
    (input_reference : option Catalogue.UploadFile)
    (after : option string) (order : Catalogue.Order) (w : World) :
  disk (fst (Router.get_video_status env video_id w)) = disk w
  /\ disk (fst (Router.remix_video env video_id request w)) = disk w
  /\ disk (fst (Catalogue.create_video_route settings provider env prompt
                  model seconds size input_reference w)) = disk w
  /\ disk (fst (Catalogue.list_videos_route provider env limit after order
                  w)) = disk w.
Proof.
  split; [|split; [|split]].
  - unfold Router.get_video_status, try_except.
    rewrite RouterFacts.get_video_status_run.
    by destruct (retrieved env (ncalls w) video_id).
  - unfold Router.remix_video, try_except, bind.
    rewrite RouterFacts.get_video_status_run.
    destruct (retrieved env (ncalls w) video_id) as [[]|job]; try done.
    destruct (status_eqb (status job) completed); cbn [negb]; [|done].
    rewrite RouterFacts.remix_video_run.
    by destruct (remixed env _ video_id (Router.prompt request)) as [[]|].
  - unfold Catalogue.create_video_route, try_except.
    destruct ((seconds =? 4) || (seconds =? 8) || (seconds =? 12));
      cbn [negb]; [|done].
    unfold bind, Catalogue.check_reference.
    destruct input_reference as [file|].
    + destruct (_ >? _); [done|].
      destruct (Catalogue.not_an_image _); [done|].
      unfold ret. rewrite CreateFacts.create_video_run.
      by destruct (created _ _ _ _) as [[]|].
    + unfold ret. rewrite CreateFacts.create_video_run.
      by destruct (created _ _ _ _) as [[]|].
  - unfold Catalogue.list_videos_route.
    destruct ((limit <? 1) || (100 <? limit)); [done|].
    unfold try_except, bind. rewrite ListFacts.list_videos_run.
    destruct (Catalogue.videos_list provider (ncalls w) _) as [e|page];
      [done|].
    by destruct (Catalogue.convert_all env (Catalogue.page_data page)).
Qed.
